(** * Fyona canvas editor: block manipulation and layout-state synchronisation

    A shallow embedding of the client-side editor state machine
    ([static/js/src/pages.js]), of the legacy client
    ([legacy/static/js/app.js], [legacy/src/blocks.js]) and of the Flask
    block endpoint, together with the properties of the specification
    that concern them.

    Numbers.  A finite JavaScript number is modelled by its exact value,
    a rational ([Q]); the three non-finite values are kept apart in
    [num] wherever the source tests for them ([Number.isFinite],
    [x || d]).  Comparisons, [Math.round], [Math.max], [Math.min],
    [Math.abs] and [toFixed] are exact on these values; sums,
    differences, products, quotients and the reading of a decimal
    numeral round their exact result to binary64 ([to_double]).  Values
    produced by [Math.round] are integers and are stored as [Z]. *)

From Stdlib Require Import ZArith QArith Qround Qabs Lia Lqa List Ascii.
From stdpp Require Import base option gmap strings list fin_maps.
Import ListNotations.

Local Open Scope Z_scope.

(** ** JavaScript numbers *)

Module JS.

(** A JavaScript number: a finite value, [NaN], or a signed infinity. *)
Inductive num : Type :=
| Fin (q : Q)
| NaN
| Inf (positive : bool).

(** [Math.round(x)]: nearest integer, ties towards plus infinity. *)
Definition Math_round (x : Q) : Z := Qfloor (x + (1 # 2)).

(** [Math.max(a, b)] on integers. *)
Definition Math_max (a b : Z) : Z := Z.max a b.

(** [Math.max] and [Math.min] on finite numbers. *)
Definition Qmax (a b : Q) : Q := if Qle_bool a b then b else a.
Definition Qmin (a b : Q) : Q := if Qle_bool a b then a else b.

(** [clampNumber(value, min, max) = Math.min(max, Math.max(min, value))]. *)
Definition clampNumber (value min max : Q) : Q := Qmin max (Qmax min value).

(** [Number(x.toFixed(2))]: the nearest multiple of 1/100, ties away
    from zero (the sign is treated apart, as [toFixed] does). *)
Definition toFixed2 (x : Q) : Q :=
  if Qle_bool 0 x
  then Qfloor (x * 100 + (1 # 2)) # 100
  else - (Qfloor ((- x) * 100 + (1 # 2)) # 100).

(** [Number.isFinite(v) ? v : d]. *)
Definition finite_or (v : num) (d : Q) : Q :=
  match v with Fin q => q | _ => d end.

(** Truthiness of a finite number: [x || d]. *)
Definition or_default (x d : Q) : Q := if Qeq_bool x 0 then d else x.

(** *** Binary64 arithmetic *)

(** The integer nearest to [n / d], ties to the even one ([0 <= n],
    [0 < d]). *)
Definition round_half_even (n d : Z) : Z :=
  let q := n / d in
  let r := n mod d in
  match 2 * r ?= d with
  | Lt => q
  | Gt => q + 1
  | Eq => if Z.even q then q else q + 1
  end.

(** [2 ^ t <= n / d], for positive [n] and [d]. *)
Definition reaches (n d t : Z) : bool :=
  if 0 <=? t then d * 2 ^ t <=? n else d <=? n * 2 ^ (- t).

(** The exponent of the last place of the double nearest to [n / d]:
    the [e] with [2 ^ 52 <= (n / d) / 2 ^ e < 2 ^ 53], but not below
    the exponent -1074 of the subnormal numbers. *)
Definition binade (n d : Z) : Z :=
  let t := Z.log2 n - Z.log2 d in
  let e := (if reaches n d t then t else t - 1) - 52 in
  Z.max e (-1074).

Definition to_double_pos (n d : Z) : Q :=
  let e := binade n d in
  if 0 <=? e
  then inject_Z (round_half_even n (d * 2 ^ e) * 2 ^ e)
  else Qred (round_half_even (n * 2 ^ (- e)) d # Z.to_pos (2 ^ (- e))).

(** The binary64 number nearest to [x]: 53 significant bits, round to
    nearest, ties to even, gradual underflow.  The result is in lowest
    terms.  Overflow is not represented: beyond the largest finite
    double the rounding goes on with the same precision, and
    [is_finite] tells such a result from a finite one. *)
Definition to_double (x : Q) : Q :=
  let x := Qred x in
  match Qnum x with
  | Z0 => 0
  | Zpos n => to_double_pos (Zpos n) (Zpos (Qden x))
  | Zneg n => - to_double_pos (Zpos n) (Zpos (Qden x))
  end.

(** [a + b], [a - b], [a * b] and [a / b] on doubles. *)
Definition js_add (a b : Q) : Q := to_double (a + b).
Definition js_sub (a b : Q) : Q := to_double (a - b).
Definition js_mul (a b : Q) : Q := to_double (a * b).
Definition js_div (a b : Q) : Q := to_double (a / b).

(** [Number.isFinite(x)] for the result of an operation: a result of
    magnitude [2 ^ 1024 - 2 ^ 970] or more stands for an infinity. *)
Definition is_finite (x : Q) : bool :=
  negb (Qle_bool (inject_Z (2 ^ 1024 - 2 ^ 970)) (Qabs x)).

(** [x] is a double. *)
Definition is_double (x : Q) : Prop := to_double x = x.

(** A double of magnitude at most [2 ^ 53]: sums, differences and
    quotients by a zoom factor of such values do not overflow. *)
Definition pixel_value (x : Q) : Prop :=
  is_double x /\ (Qabs x <= inject_Z (2 ^ 53))%Q.

End JS.

(** ** The editor of [static/js/src/pages.js] *)

Module Editor.
Import JS.

(** *** Data model *)

(** [block.position]: page-pixel geometry, always the result of
    [Math.round]. *)
Record position : Type := Position {
  p_left : Z;
  p_top : Z;
  p_width : Z;
  p_height : Z;
}.

(** A normalized block of [state.blocks]. *)
Record block : Type := Block {
  b_id : string;
  b_type : string;
  b_content : string;
  b_backgroundColor : string;
  b_textColor : string;
  b_borderRadius : Q;
  b_imageUrl : option string;
  b_position : position;
}.

(** The JSON of a block as the server sends it.  An absent property is
    [None]; [id] and [type] are strings, the empty string standing for
    a falsy value. *)
Record raw_position : Type := RawPosition {
  r_left : option Q;
  r_top : option Q;
  r_width : option Q;
  r_height : option Q;
}.

Record raw_block : Type := RawBlock {
  r_id : string;
  r_type : string;
  r_content : option string;
  r_backgroundColor : option string;
  r_textColor : option string;
  r_borderRadius : option Q;
  r_imageUrl : option string;
  r_position : option raw_position;
}.

Record dims : Type := Dims { d_width : Q; d_height : Q }.

(** The layout JSON ([state.layout]). *)
Record layout : Type := Layout {
  l_format : option string;
  l_orientation : option string;
  l_dimensions : option dims;
  l_blocks : option (list raw_block);
}.

(** A block element of the DOM: [dataset.id], the [selected] class and
    the four inline style lengths written by [applyBlockPosition]. *)
Record element : Type := Element {
  dataset_id : string;
  selected : bool;
  style : position;
}.

(** Elements are objects shared between the canvas' child list and
    [state.blockElements]; both hold handles into one element store. *)
Definition handle := nat.

Inductive mode : Type := drag | resize.

(** [state.activePointer]. *)
Record active_pointer : Type := ActivePointer {
  blockId : string;
  a_pointerId : Z;
  a_mode : mode;
  startX : Q;
  startY : Q;
  originLeft : Z;
  originTop : Z;
  originWidth : Z;
  originHeight : Z;
}.

(** What a handler reads from a [PointerEvent]; [on_handle] is
    [event.target.classList.contains('resize-handle')]. *)
Record pointer_event : Type := PointerEvent {
  pointerId : Z;
  clientX : Q;
  clientY : Q;
  is_mouse : bool;
  button : Z;
  detail : Z;
  on_handle : bool;
}.

(** The outcome of [await fetch(..)] followed by [response.json()]:
    the promise rejects, or it resolves with [response.ok] and a body
    that parses ([Some]) or does not ([None]).  A body that parses has
    the shape the endpoint answers with: a layout object, a block. *)
Inductive response (A : Type) : Type :=
| NetworkError
| Http (ok : bool) (body : option A).
Arguments NetworkError {A}.
Arguments Http {A} ok body.

(** The [updates] object of an update request. *)
Inductive updates : Type :=
| UpdPosition (p : position).

(** Requests sent with [fetch], toasts and console errors, in the
    order in which they are issued. *)
Inductive effect : Type :=
| GetLayout (project : string)
| PostBlockAdd (project : string) (b : raw_block)
| PostBlockDelete (project : string) (block_id : string)
| PostBlockUpdate (project : string) (block_id : string) (u : updates)
| Toast (message : string) (isError : bool)
| ConsoleError.

Record state : Type := State {
  project : string;
  layout_of : option layout;
  blocks : gmap string block;
  blockOrder : list string;
  blockElements : gmap string handle;
  selectedId : option string;
  activePointer : option active_pointer;
  format : string;
  orientation : string;
  zoom : Q;
  (* the document *)
  dom : gmap handle element;
  next_handle : handle;
  canvas : list handle;
  (* the outside world *)
  effects : list effect;
}.

Definition initial_state : state :=
  {| project := "default"; layout_of := None; blocks := ∅; blockOrder := [];
     blockElements := ∅; selectedId := None; activePointer := None;
     format := "A4"; orientation := "portrait"; zoom := 1;
     dom := ∅; next_handle := O; canvas := []; effects := [] |}.

(** The own entries of [CANVAS_PRESETS]. *)
Definition CANVAS_PRESETS (format : string) : option dims :=
  if String.eqb format "A5" then Some (Dims 559 794)
  else if String.eqb format "A4" then Some (Dims 794 1123)
  else if String.eqb format "A3" then Some (Dims 1123 1587)
  else if String.eqb format "Letter" then Some (Dims 816 1056)
  else None.

Definition preset_A4 : dims := Dims 794 1123.

(** The members [CANVAS_PRESETS] inherits from [Object.prototype]: a
    lookup of one of these names yields a truthy value without [width]
    and [height]. *)
Definition inherited_key (key : string) : bool :=
  existsb (String.eqb key)
    ["constructor"; "__defineGetter__"; "__defineSetter__"; "hasOwnProperty";
     "__lookupGetter__"; "__lookupSetter__"; "isPrototypeOf";
     "propertyIsEnumerable"; "toString"; "valueOf"; "__proto__";
     "toLocaleString"].

(** The width and height of [{...(CANVAS_PRESETS[format] || CANVAS_PRESETS.A4)}];
    [None] when the spread object has neither. *)
Definition preset_or_A4 (format : string) : option dims :=
  match CANVAS_PRESETS format with
  | Some d => Some d
  | None => if inherited_key format then None else Some preset_A4
  end.

(** [ZOOM_CONFIG]. *)
Definition ZOOM_min : Q := 1 # 2.
Definition ZOOM_max : Q := 5.
Definition ZOOM_step : Q := to_double (1 # 10).

(** *** Field updates *)

Definition set_blocks (m : gmap string block) (s : state) : state :=
  {| project := project s; layout_of := layout_of s; blocks := m;
     blockOrder := blockOrder s; blockElements := blockElements s;
     selectedId := selectedId s; activePointer := activePointer s;
     format := format s; orientation := orientation s; zoom := zoom s;
     dom := dom s; next_handle := next_handle s; canvas := canvas s;
     effects := effects s |}.

Definition set_blockOrder (o : list string) (s : state) : state :=
  {| project := project s; layout_of := layout_of s; blocks := blocks s;
     blockOrder := o; blockElements := blockElements s;
     selectedId := selectedId s; activePointer := activePointer s;
     format := format s; orientation := orientation s; zoom := zoom s;
     dom := dom s; next_handle := next_handle s; canvas := canvas s;
     effects := effects s |}.

Definition set_blockElements (m : gmap string handle) (s : state) : state :=
  {| project := project s; layout_of := layout_of s; blocks := blocks s;
     blockOrder := blockOrder s; blockElements := m;
     selectedId := selectedId s; activePointer := activePointer s;
     format := format s; orientation := orientation s; zoom := zoom s;
     dom := dom s; next_handle := next_handle s; canvas := canvas s;
     effects := effects s |}.

Definition set_selectedId (i : option string) (s : state) : state :=
  {| project := project s; layout_of := layout_of s; blocks := blocks s;
     blockOrder := blockOrder s; blockElements := blockElements s;
     selectedId := i; activePointer := activePointer s;
     format := format s; orientation := orientation s; zoom := zoom s;
     dom := dom s; next_handle := next_handle s; canvas := canvas s;
     effects := effects s |}.

Definition set_activePointer (a : option active_pointer) (s : state) : state :=
  {| project := project s; layout_of := layout_of s; blocks := blocks s;
     blockOrder := blockOrder s; blockElements := blockElements s;
     selectedId := selectedId s; activePointer := a;
     format := format s; orientation := orientation s; zoom := zoom s;
     dom := dom s; next_handle := next_handle s; canvas := canvas s;
     effects := effects s |}.

Definition set_zoom (z : Q) (s : state) : state :=
  {| project := project s; layout_of := layout_of s; blocks := blocks s;
     blockOrder := blockOrder s; blockElements := blockElements s;
     selectedId := selectedId s; activePointer := activePointer s;
     format := format s; orientation := orientation s; zoom := z;
     dom := dom s; next_handle := next_handle s; canvas := canvas s;
     effects := effects s |}.

Definition set_dom (d : gmap handle element) (s : state) : state :=
  {| project := project s; layout_of := layout_of s; blocks := blocks s;
     blockOrder := blockOrder s; blockElements := blockElements s;
     selectedId := selectedId s; activePointer := activePointer s;
     format := format s; orientation := orientation s; zoom := zoom s;
     dom := d; next_handle := next_handle s; canvas := canvas s;
     effects := effects s |}.

Definition set_canvas (c : list handle) (s : state) : state :=
  {| project := project s; layout_of := layout_of s; blocks := blocks s;
     blockOrder := blockOrder s; blockElements := blockElements s;
     selectedId := selectedId s; activePointer := activePointer s;
     format := format s; orientation := orientation s; zoom := zoom s;
     dom := dom s; next_handle := next_handle s; canvas := c;
     effects := effects s |}.

Definition set_next_handle (n : handle) (s : state) : state :=
  {| project := project s; layout_of := layout_of s; blocks := blocks s;
     blockOrder := blockOrder s; blockElements := blockElements s;
     selectedId := selectedId s; activePointer := activePointer s;
     format := format s; orientation := orientation s; zoom := zoom s;
     dom := dom s; next_handle := n; canvas := canvas s;
     effects := effects s |}.

(** [state.project = ..; state.layout = ..]. *)
Definition set_project_layout (p : string) (l : option layout) (s : state) : state :=
  {| project := p; layout_of := l; blocks := blocks s;
     blockOrder := blockOrder s; blockElements := blockElements s;
     selectedId := selectedId s; activePointer := activePointer s;
     format := format s; orientation := orientation s; zoom := zoom s;
     dom := dom s; next_handle := next_handle s; canvas := canvas s;
     effects := effects s |}.

(** [state.format = ..; state.orientation = ..; state.layout = ..]. *)
Definition set_meta (f o : string) (l : option layout) (s : state) : state :=
  {| project := project s; layout_of := l; blocks := blocks s;
     blockOrder := blockOrder s; blockElements := blockElements s;
     selectedId := selectedId s; activePointer := activePointer s;
     format := f; orientation := o; zoom := zoom s;
     dom := dom s; next_handle := next_handle s; canvas := canvas s;
     effects := effects s |}.

(** Appends one effect to the trace. *)
Definition emit (e : effect) (s : state) : state :=
  {| project := project s; layout_of := layout_of s; blocks := blocks s;
     blockOrder := blockOrder s; blockElements := blockElements s;
     selectedId := selectedId s; activePointer := activePointer s;
     format := format s; orientation := orientation s; zoom := zoom s;
     dom := dom s; next_handle := next_handle s; canvas := canvas s;
     effects := effects s ++ [e] |}.

(** [showToast(message, isError)]. *)
Definition showToast (message : string) (isError : bool) (s : state) : state :=
  emit (Toast message isError) s.

(** *** Blocks and their elements *)

Definition Qltb (x y : Q) : bool := negb (Qle_bool y x).

(** [Number(x) || d] for a property that is a number or absent. *)
Definition number_or (x : option Q) (d : Q) : Q :=
  match x with
  | Some q => or_default q d
  | None => d
  end.

Definition is_empty (x : string) : bool := String.eqb x EmptyString.

Definition empty_raw_position : raw_position := RawPosition None None None None.

(** [normalizeBlock(block)]; [fresh] is the value [generateClientId()]
    returns if it is called. *)
Definition normalizeBlock (blk : raw_block) (fresh : string) : block :=
  let position := default empty_raw_position (r_position blk) in
  let id := if is_empty (r_id blk) then fresh else r_id blk in
  {| b_id := id;
     b_type := if is_empty (r_type blk) then "text" else r_type blk;
     b_content := default EmptyString (r_content blk);
     b_backgroundColor := default "#ffffff" (r_backgroundColor blk);
     b_textColor := default "#1c2333" (r_textColor blk);
     b_borderRadius := default 12%Q (r_borderRadius blk);
     b_imageUrl :=
       match r_imageUrl blk with
       | Some u => if is_empty u then None else Some u
       | None => None
       end;
     b_position :=
       {| p_left := Math_round (number_or (r_left position) 0);
          p_top := Math_round (number_or (r_top position) 0);
          p_width := Math_max 40 (Math_round (number_or (r_width position) 240));
          p_height := Math_max 40 (Math_round (number_or (r_height position) 140)) |} |}.

Definition set_style (p : position) (el : element) : element :=
  {| dataset_id := dataset_id el; selected := selected el; style := p |}.

Definition set_selected (v : bool) (el : element) : element :=
  {| dataset_id := dataset_id el; selected := v; style := style el |}.

(** [applyBlockPosition(block)], the element being
    [state.blockElements.get(block.id)]. *)
Definition applyBlockPosition (b : block) (s : state) : state :=
  match blockElements s !! b_id b with
  | Some h => set_dom (alter (set_style (b_position b)) h (dom s)) s
  | None => s
  end.

(** [element.classList.add('selected')] / [.remove('selected')]. *)
Definition classList_selected (v : bool) (h : handle) (s : state) : state :=
  set_dom (alter (set_selected v) h (dom s)) s.

(** [element.remove()]. *)
Definition detach (h : handle) (children : list handle) : list handle :=
  List.filter (fun x => negb (Nat.eqb x h)) children.

(** [createBlockElement(block)]: a new element carrying the block's id
    and geometry; its listeners are the handlers [onBlockClick] and
    [onBlockPointerDown] below. *)
Definition createBlockElement (b : block) (s : state) : handle * state :=
  let h := next_handle s in
  (h, set_next_handle (S h)
        (set_dom (<[h := Element (b_id b) false (b_position b)]> (dom s)) s)).

(** [els.canvas.appendChild(element); state.blockElements.set(id, element)]. *)
Definition mount (id : string) (h : handle) (s : state) : state :=
  set_blockElements (<[id := h]> (blockElements s))
    (set_canvas (canvas s ++ [h]) s).

Definition renderCanvas (s : state) : state :=
  fold_left
    (fun s id =>
       match blocks s !! id with
       | Some b =>
           if is_empty (b_id b) then s
           else let '(h, s1) := createBlockElement b s in mount id h s1
       | None => s
       end)
    (blockOrder s)
    (set_blockElements ∅ (set_canvas [] s)).

(** *** Selection *)

(** The common prefix of [selectBlock] and [deselectBlock]: the element
    of the current selection loses the [selected] class. *)
Definition unmark_selected (s : state) : state :=
  match selectedId s with
  | Some i =>
      if is_empty i then s
      else match blockElements s !! i with
           | Some h => classList_selected false h s
           | None => s
           end
  | None => s
  end.

Definition selectBlock (blockId : string) (s : state) : state :=
  if decide (selectedId s = Some blockId) then s
  else
    let s1 := unmark_selected s in
    match blockElements s1 !! blockId, blocks s1 !! blockId with
    | Some h, Some _ => set_selectedId (Some blockId) (classList_selected true h s1)
    | _, _ => set_selectedId None s1
    end.

Definition deselectBlock (s : state) : state :=
  set_selectedId None (unmark_selected s).

Definition getSelectedBlock (s : state) : option block :=
  match selectedId s with
  | Some i => if is_empty i then None else blocks s !! i
  | None => None
  end.

(** *** Persistence of one block *)

(** [persistBlock(blockId, updates)] up to its [await]. *)
Definition persistBlock (blockId : string) (u : updates) (s : state) : state :=
  emit (PostBlockUpdate (project s) blockId u) s.

(** The [catch] of [persistBlock], reached when [fetch] rejects. *)
Definition persistBlock_rejected (s : state) : state :=
  showToast "Unable to sync block" true (emit ConsoleError s).

(** *** Inspector: numeric inputs *)

Inductive field : Type := f_left | f_top | f_width | f_height.

Definition set_field (f : field) (v : Z) (p : position) : position :=
  match f with
  | f_left => Position v (p_top p) (p_width p) (p_height p)
  | f_top => Position (p_left p) v (p_width p) (p_height p)
  | f_width => Position (p_left p) (p_top p) v (p_height p)
  | f_height => Position (p_left p) (p_top p) (p_width p) v
  end.

Definition set_position (p : position) (b : block) : block :=
  {| b_id := b_id b; b_type := b_type b; b_content := b_content b;
     b_backgroundColor := b_backgroundColor b; b_textColor := b_textColor b;
     b_borderRadius := b_borderRadius b; b_imageUrl := b_imageUrl b;
     b_position := p |}.

(** The [change] listener installed by [bindNumericInput(input, field, min)];
    [input_value] is [Number(input.value)].  The block object mutated is
    the one stored under [state.selectedId]. *)
Definition bindNumericInput (f : field) (min : option Q) (input_value : num)
    (s : state) : state :=
  match selectedId s, getSelectedBlock s with
  | Some key, Some b =>
      let value := finite_or input_value 0 in
      let value :=
        match min with
        | Some m => if Qltb value m then m else value
        | None => value
        end in
      let b' := set_position (set_field f (Math_round value) (b_position b)) b in
      let s1 := set_blocks (<[key := b']> (blocks s)) s in
      let s2 := applyBlockPosition b' s1 in
      persistBlock (b_id b') (UpdPosition (b_position b')) s2
  | _, _ => s
  end.

(** The four bindings of [bindUIEvents]. *)
Definition field_min (f : field) : option Q :=
  match f with
  | f_left | f_top => None
  | f_width | f_height => Some 40%Q
  end.

Definition onNumericChange (f : field) (input_value : num) (s : state) : state :=
  bindNumericInput f (field_min f) input_value s.

(** *** Pointer interaction *)

(** [startPointerInteraction(event, blockId, mode)].  Pointer capture
    and the registration of the move and up listeners on the element
    are not represented: [handlePointerMove] and
    [endPointerInteraction] test [state.activePointer] themselves. *)
Definition startPointerInteraction (e : pointer_event) (id : string) (m : mode)
    (s : state) : state :=
  match activePointer s with
  | Some _ => s
  | None =>
      match blocks s !! id, blockElements s !! id with
      | Some b, Some _ =>
          set_activePointer
            (Some {| blockId := id;
                     a_pointerId := pointerId e;
                     a_mode := m;
                     startX := clientX e;
                     startY := clientY e;
                     originLeft := p_left (b_position b);
                     originTop := p_top (b_position b);
                     originWidth := p_width (b_position b);
                     originHeight := p_height (b_position b) |})
            s
      | _, _ => s
      end
  end.

(** The [click] listener of a block element. *)
Definition onBlockClick (h : handle) (s : state) : state :=
  match dom s !! h with
  | Some el => selectBlock (dataset_id el) s
  | None => s
  end.

(** The [pointerdown] listener of a block element; the [block.id] of
    its closure is the element's [dataset.id]. *)
Definition onBlockPointerDown (h : handle) (e : pointer_event) (s : state) : state :=
  match dom s !! h with
  | Some el =>
      if is_mouse e && negb (button e =? 0) then s
      else if 1 <? detail e then s
      else
        let s1 := selectBlock (dataset_id el) s in
        if on_handle e
        then startPointerInteraction e (dataset_id el) resize s1
        else startPointerInteraction e (dataset_id el) drag s1
  | None => s
  end.

(** The [pointerdown] listener of the canvas, for a press on the canvas
    itself ([e.target === els.canvas]). *)
Definition onCanvasPointerDown (s : state) : state := deselectBlock s.

(** [state.zoom || 1]. *)
Definition scale_of (s : state) : Q := or_default (zoom s) 1.

Definition handlePointerMove (e : pointer_event) (s : state) : state :=
  match activePointer s with
  | None => s
  | Some active =>
      if negb (pointerId e =? a_pointerId active) then s
      else
        match blocks s !! blockId active with
        | None => s
        | Some b =>
            let dx := js_sub (clientX e) (startX active) in
            let dy := js_sub (clientY e) (startY active) in
            let scale := scale_of s in
            let p := b_position b in
            let p' :=
              match a_mode active with
              | drag =>
                  Position
                    (Math_round (js_add (inject_Z (originLeft active)) (js_div dx scale)))
                    (Math_round (js_add (inject_Z (originTop active)) (js_div dy scale)))
                    (p_width p) (p_height p)
              | resize =>
                  Position (p_left p) (p_top p)
                    (Math_max 40
                       (Math_round (js_add (inject_Z (originWidth active)) (js_div dx scale))))
                    (Math_max 40
                       (Math_round (js_add (inject_Z (originHeight active)) (js_div dy scale))))
              end in
            let b' := set_position p' b in
            applyBlockPosition b' (set_blocks (<[blockId active := b']> (blocks s)) s)
        end
  end.

(** The [pointerup] / [pointercancel] listener. *)
Definition endPointerInteraction (e : pointer_event) (s : state) : state :=
  match activePointer s with
  | None => s
  | Some active =>
      if negb (pointerId e =? a_pointerId active) then s
      else
        let s1 :=
          match blocks s !! blockId active with
          | Some b => persistBlock (b_id b) (UpdPosition (b_position b)) s
          | None => s
          end in
        set_activePointer None s1
  end.

(** *** Creating and deleting blocks *)

Definition is_image (type : string) : bool := String.eqb type "image".

(** [createBlock(type)] up to its [await]; [rx] and [ry] are the two
    values of [Math.floor(Math.random() * 60)]. *)
Definition createBlock_request (type : string) (rx ry : Z) (s : state) : state :=
  emit
    (PostBlockAdd (project s)
       {| r_id := EmptyString;
          r_type := type;
          r_content := Some (if is_image type then "Double-click to add image"
                             else "Editable text");
          r_backgroundColor := Some "#ffffff";
          r_textColor := Some "#1c2333";
          r_borderRadius := Some 12%Q;
          r_imageUrl := None;
          r_position :=
            Some {| r_left := Some (inject_Z (120 + rx));
                    r_top := Some (inject_Z (120 + ry));
                    r_width := Some 260%Q;
                    r_height := Some (if is_image type then 180%Q else 140%Q) |} |})
    s.

(** [createBlock(type)] from its [await] on; the body of a successful
    response is [data.block] ([None] when the body does not parse or
    has no block, in which case [normalizeBlock] throws). *)
Definition createBlock_response (type : string) (resp : response raw_block)
    (fresh : string) (s : state) : state :=
  match resp with
  | Http true (Some data_block) =>
      let b := normalizeBlock data_block fresh in
      let s1 := set_blocks (<[b_id b := b]> (blocks s)) s in
      let s2 := set_blockOrder (blockOrder s1 ++ [b_id b]) s1 in
      let '(h, s3) := createBlockElement b s2 in
      let s4 := mount (b_id b) h s3 in
      let s5 := selectBlock (b_id b) s4 in
      showToast (if is_image type then "Image block added" else "Text block added")
        false s5
  | _ => showToast "Unable to add block" true (emit ConsoleError s)
  end.

Definition createBlock (type : string) (rx ry : Z) (resp : response raw_block)
    (fresh : string) (s : state) : state :=
  createBlock_response type resp fresh (createBlock_request type rx ry s).

Definition deleteBlock_request (id : string) (s : state) : state :=
  emit (PostBlockDelete (project s) id) s.

Definition deleteBlock_response (id : string) (resp : response unit)
    (s : state) : state :=
  match resp with
  | Http true _ =>
      let s1 :=
        match blockElements s !! id with
        | Some h => set_canvas (detach h (canvas s)) s
        | None => s
        end in
      let s2 := set_blockElements (delete id (blockElements s1)) s1 in
      let s3 := set_blocks (delete id (blocks s2)) s2 in
      let s4 := set_blockOrder
                  (List.filter (fun i => negb (String.eqb i id)) (blockOrder s3)) s3 in
      showToast "Block deleted" false (deselectBlock s4)
  | _ => showToast "Unable to delete block" true (emit ConsoleError s)
  end.

Definition deleteBlock (id : string) (resp : response unit) (s : state) : state :=
  deleteBlock_response id resp (deleteBlock_request id s).

(** The [click] listener of the delete button. *)
Definition onDeleteClick (s : state) : state :=
  match getSelectedBlock s with
  | Some b => deleteBlock_request (b_id b) s
  | None => s
  end.

(** *** Loading a layout *)

Definition is_landscape (o : option string) : bool :=
  match o with
  | Some x => String.eqb x "landscape"
  | None => false
  end.

Definition nonzero (x : Q) : bool := negb (Qeq_bool x 0).

(** The swap of [applyCanvasMeta]: landscape dimensions are at least as
    wide as high, portrait dimensions at least as high as wide. *)
Definition orient (landscape : bool) (d : dims) : dims :=
  if landscape && Qltb (d_width d) (d_height d)
  then Dims (d_height d) (d_width d)
  else if negb landscape && Qltb (d_height d) (d_width d)
  then Dims (d_height d) (d_width d)
  else d.

(** [applyCanvasMeta(layout)]; the deferred [scheduleCanvasFit] is the
    separate step [fitCanvasToPanel].  Dimensions without width and
    height (the spread of an inherited member) are [None]. *)
Definition applyCanvasMeta (l : layout) (s : state) : state :=
  let format :=
    match l_format l with
    | Some f => if negb (is_empty f)
                   && (bool_decide (is_Some (CANVAS_PRESETS f)) || inherited_key f)
                then f else "A4"
    | None => "A4"
    end in
  let orientation := if is_landscape (l_orientation l) then "landscape" else "portrait" in
  let basePreset := preset_or_A4 format in
  let dimensions :=
    match l_dimensions l with
    | Some d => if nonzero (d_width d) && nonzero (d_height d) then Some d else basePreset
    | None => basePreset
    end in
  let dimensions := orient (is_landscape (l_orientation l)) <$> dimensions in
  set_meta format orientation
    (Some {| l_format := Some format; l_orientation := Some orientation;
             l_dimensions := dimensions; l_blocks := l_blocks l |})
    s.

(** [setCanvasFormat(format, orientation)]. *)
Definition setCanvasFormat (format : string) (o : string) (s : state) : state :=
  let preset := preset_or_A4 format in
  let orientation := if String.eqb o "landscape" then "landscape" else "portrait" in
  let dims :=
    (fun base =>
       if String.eqb o "landscape"
       then Dims (d_height base) (d_width base)
       else Dims (d_width base) (d_height base)) <$> preset in
  set_meta format orientation
    (Some {| l_format := Some format; l_orientation := Some orientation;
             l_dimensions := dims;
             l_blocks := layout_of s ≫= l_blocks |})
    s.

(** The [forEach] of [loadLayout] over [layout.blocks || []]; [fresh n]
    is what [generateClientId()] returns for the [n]-th block. *)
Fixpoint store_blocks (bs : list raw_block) (fresh : nat -> string) (n : nat)
    (s : state) : state :=
  match bs with
  | [] => s
  | blk :: rest =>
      let s1 := set_blocks (<[r_id blk := normalizeBlock blk (fresh n)]> (blocks s)) s in
      let s2 := set_blockOrder (blockOrder s1 ++ [r_id blk]) s1 in
      store_blocks rest fresh (S n) s2
  end.

Definition loadLayout_request (project : string) (s : state) : state :=
  emit (GetLayout project) s.

(** [loadLayout(project)] from its [await] on. *)
Definition loadLayout_response (project : string) (resp : response layout)
    (fresh : nat -> string) (s : state) : state :=
  match resp with
  | Http true (Some l) =>
      let s1 := set_project_layout project (Some l) s in
      let s2 := set_blocks ∅ s1 in
      let s3 := set_canvas
                  (map_fold (fun _ h c => detach h c) (canvas s2) (blockElements s2))
                  s2 in
      let s4 := set_blockOrder [] (set_blockElements ∅ s3) in
      let s5 := store_blocks (default [] (l_blocks l)) fresh O s4 in
      let s6 := renderCanvas s5 in
      let s7 := deselectBlock s6 in
      applyCanvasMeta l s7
  | _ => showToast "Unable to load layout" true (emit ConsoleError s)
  end.

Definition loadLayout (project : string) (resp : response layout)
    (fresh : nat -> string) (s : state) : state :=
  loadLayout_response project resp fresh (loadLayout_request project s).

(** *** Zoom *)

(** [Number(x.toFixed(2))] and [parseFloat(x.toFixed(2))]: the decimal
    numeral with two places nearest to the double [x], read back as a
    double. *)
Definition two_decimals (x : Q) : Q := to_double (toFixed2 x).

Definition setCanvasZoom (value : num) (s : state) : state :=
  let z := clampNumber (finite_or value (zoom s)) ZOOM_min ZOOM_max in
  set_zoom (two_decimals z) s.

Definition adjustCanvasZoom (delta : Q) (s : state) : state :=
  let raw := js_add (zoom s) delta in
  let snapped := js_mul (inject_Z (Math_round (js_div raw ZOOM_step))) ZOOM_step in
  setCanvasZoom (Fin (two_decimals snapped)) s.

Definition handleZoomWheel (metaKey ctrlKey : bool) (deltaY : Q) (s : state) : state :=
  if negb metaKey && negb ctrlKey then s
  else if Qeq_bool deltaY 0 then s
  else
    let direction := if Qltb deltaY 0 then 1%Q else (-1)%Q in
    adjustCanvasZoom (js_mul direction ZOOM_step) s.

(** The container of the canvas as [fitCanvasToPanel] reads it:
    [clientWidth], an integer, and the two computed paddings after
    [parseFloat]. *)
Record panel : Type := Panel {
  clientWidth : Z;
  paddingLeft : Q;
  paddingRight : Q;
}.

(** [availableWidth] of [fitCanvasToPanel]. *)
Definition availableWidth (c : panel) : Q :=
  let paddingX := js_add (or_default (paddingLeft c) 0) (or_default (paddingRight c) 0) in
  Qmax (js_sub (inject_Z (clientWidth c)) paddingX) 120.

(** [fitCanvasToPanel()]; [container] is [els.canvasPanel || els.canvasWrapper]. *)
Definition fitCanvasToPanel (container : option panel) (s : state) : state :=
  match layout_of s ≫= l_dimensions, container with
  | Some dims, Some c =>
      if negb (nonzero (d_width dims)) || negb (nonzero (d_height dims)) then s
      else
        let available := availableWidth c in
        if negb (is_finite available) || Qle_bool available 0 then s
        else
          let desiredZoom := js_div available (d_width dims) in
          if negb (is_finite desiredZoom) || Qle_bool desiredZoom 0 then s
          else
            let nextZoom := clampNumber desiredZoom ZOOM_min ZOOM_max in
            if Qltb (Qabs (js_sub nextZoom (zoom s))) (to_double (1 # 100)) then s
            else setCanvasZoom (Fin nextZoom) s
  | _, _ => s
  end.

(** *** The event loop *)

Inductive event : Type :=
| LoadLayout (project : string)
| LoadLayoutResponse (project : string) (resp : response layout) (fresh : nat -> string)
| AddBlock (type : string) (rx ry : Z)
| AddBlockResponse (type : string) (resp : response raw_block) (fresh : string)
| DeleteClick
| DeleteResponse (id : string) (resp : response unit)
| PersistRejected
| CanvasPointerDown
| BlockClick (h : handle)
| BlockPointerDown (h : handle) (e : pointer_event)
| PointerMove (e : pointer_event)
| PointerUp (e : pointer_event)
| NumericChange (f : field) (input_value : num)
| FormatChange (format : string)
| ToggleOrientation
| ZoomInput (value : num)
| ZoomIn
| ZoomOut
| ZoomWheel (metaKey ctrlKey : bool) (deltaY : Q)
| Fit (container : option panel).

Definition step (s : state) (ev : event) : state :=
  match ev with
  | LoadLayout p => loadLayout_request p s
  | LoadLayoutResponse p r fresh => loadLayout_response p r fresh s
  | AddBlock t rx ry => createBlock_request t rx ry s
  | AddBlockResponse t r fresh => createBlock_response t r fresh s
  | DeleteClick => onDeleteClick s
  | DeleteResponse id r => deleteBlock_response id r s
  | PersistRejected => persistBlock_rejected s
  | CanvasPointerDown => onCanvasPointerDown s
  | BlockClick h => onBlockClick h s
  | BlockPointerDown h e => onBlockPointerDown h e s
  | PointerMove e => handlePointerMove e s
  | PointerUp e => endPointerInteraction e s
  | NumericChange f v => onNumericChange f v s
  | FormatChange f => setCanvasFormat f (orientation s) s
  | ToggleOrientation =>
      setCanvasFormat (format s)
        (if String.eqb (orientation s) "portrait" then "landscape" else "portrait") s
  | ZoomInput v => setCanvasZoom v s
  | ZoomIn => adjustCanvasZoom ZOOM_step s
  | ZoomOut => adjustCanvasZoom (- ZOOM_step) s
  | ZoomWheel m c dy => handleZoomWheel m c dy s
  | Fit c => fitCanvasToPanel c s
  end.

(** The state after a sequence of events. *)
Definition run (evs : list event) (s : state) : state := fold_left step evs s.

(** [init()] calls [setCanvasZoom(state.zoom)] before any event is
    handled. *)
Definition booted : state := setCanvasZoom (Fin (zoom initial_state)) initial_state.

(** The states the editor can be in. *)
Definition reachable (s : state) : Prop := exists evs, s = run evs booted.

(** A request failed: [fetch] rejected or the response is not ok. *)
Definition failed {A : Type} (r : response A) : bool :=
  match r with
  | NetworkError => true
  | Http ok _ => negb ok
  end.

(** *** Predicates on states *)

(** Width and height of a position are at least 40. *)
Definition min_size (p : position) : Prop := 40 <= p_width p /\ 40 <= p_height p.

(** Every block of the store has the minimum size. *)
Definition geometry_ok (s : state) : Prop :=
  map_Forall (fun _ b => min_size (b_position b)) (blocks s).

(** [state.zoom] is the double of a whole number of hundredths between
    0.5 and 5. *)
Definition zoom_ok (s : state) : Prop :=
  exists k : Z, zoom s = to_double (k # 100) /\ 50 <= k <= 500.

(** The whole numbers of hundredths from 0.50 to 5.00, and a test of
    all of them. *)
Definition hundredths : list Z := map (fun i => 50 + Z.of_nat i) (seq 0 451).

Definition all_hundredths (test : Z -> bool) : bool := forallb test hundredths.

(** The coordinates of an interaction are doubles of magnitude at most
    [2 ^ 53], and so are the integers of its origin. *)
Definition pixels_ok (a : active_pointer) (e : pointer_event) : Prop :=
  pixel_value (clientX e) /\ pixel_value (clientY e)
  /\ pixel_value (startX a) /\ pixel_value (startY a)
  /\ Z.abs (originLeft a) <= 2 ^ 53 /\ Z.abs (originTop a) <= 2 ^ 53
  /\ Z.abs (originWidth a) <= 2 ^ 53 /\ Z.abs (originHeight a) <= 2 ^ 53.

(** The selection is [null] or a key of the block map. *)
Definition selection_ok (s : state) : Prop :=
  forall i, selectedId s = Some i -> is_Some (blocks s !! i).

(** *** Sample data *)

Definition sample_raw : raw_block :=
  RawBlock "b1" "text" None None None None None
    (Some (RawPosition (Some 100%Q) (Some 100%Q) (Some 200%Q) (Some 150%Q))).

Definition sample_block (p : position) : block :=
  Block "b1" "text" EmptyString "#ffffff" "#1c2333" 12%Q None p.

Definition sample_layout : layout :=
  Layout (Some "A4") None None (Some [sample_raw]).

Definition sample_events : list event :=
  [LoadLayout "demo";
   LoadLayoutResponse "demo" (Http true (Some sample_layout)) (fun _ => "block-0")].

(** One text block at (100, 100, 200, 150) on an A4 page, zoom 1. *)
Definition sample_loaded : state := run sample_events booted.

Definition sample_pointer (x y : Q) (on_resize_handle : bool) : pointer_event :=
  PointerEvent 1 x y true 0 1 on_resize_handle.

(** The block is being dragged, pressed at (10, 10). *)
Definition sample_dragging : state :=
  run (sample_events ++ [BlockPointerDown O (sample_pointer 10 10 false)]) booted.

(** The block is being resized, pressed at (10, 10). *)
Definition sample_resizing : state :=
  run (sample_events ++ [BlockPointerDown O (sample_pointer 10 10 true)]) booted.

(** The resize handle was pulled far up and to the left. *)
Definition sample_shrunk : state :=
  run (sample_events
         ++ [BlockPointerDown O (sample_pointer 10 10 true);
             PointerMove (sample_pointer (-5000) (-5000) true)])
    booted.

(** The block is selected by a click. *)
Definition sample_selected : state := run (sample_events ++ [BlockClick O]) booted.

(** Numeric edits of the inspector, as events. *)
Definition numeric_changes (cs : list (field * num)) : list event :=
  map (fun c => NumericChange (fst c) (snd c)) cs.

(** Five edits of the left field, one after the other. *)
Definition sample_changes : list (field * num) :=
  [(f_left, Fin 110); (f_left, Fin 120); (f_left, Fin 130);
   (f_left, Fin 140); (f_left, Fin 150)].

(** The effect is an update request. *)
Definition is_update (e : effect) : bool :=
  match e with
  | PostBlockUpdate _ _ _ => true
  | _ => false
  end.

End Editor.

(** ** The legacy client: [legacy/static/js/app.js] *)

Module LegacyApp.

(** A block of a layout as [applyLayout] reads it. *)
Record block_data : Type := BlockData {
  bd_id : string;
  bd_type : string;
  bd_content : string;
  bd_left : Q;
  bd_top : Q;
  bd_width : Q;
  bd_height : Q;
}.

Record layout : Type := Layout {
  la_blocks : option (list block_data);
  la_columns : Z;
  la_baseline : Z;
  la_gutter : Z;
  la_snap : bool;
  la_zoom : Q;
  la_orientation : string;
  la_format : string;
  la_dimensions : Z * Z;
}.

(** A child of the canvas. *)
Record element : Type := Element {
  e_id : string;
  e_className : string;
  e_innerHTML : string;
  e_left : Q;
  e_top : Q;
  e_width : Q;
  e_height : Q;
  e_resize_handle : bool;
}.

(** [getDefaultLayout()]; its [layers] and [activeLayer] entries are
    read by nothing in this file and are left out. *)
Definition getDefaultLayout : layout :=
  {| la_blocks := Some [];
     la_columns := 3; la_baseline := 24; la_gutter := 32; la_snap := true;
     la_zoom := 1; la_orientation := "portrait"; la_format := "A4";
     la_dimensions := (794, 1123) |}.

(** The element [applyLayout] builds for one block. *)
Definition block_element (d : block_data) : element :=
  {| e_id := bd_id d;
     e_className := String.append "block " (bd_type d);
     e_innerHTML := bd_content d;
     e_left := bd_left d; e_top := bd_top d;
     e_width := bd_width d; e_height := bd_height d;
     e_resize_handle := String.eqb (bd_type d) "text" |}.

(** [applyLayout(layout)]: the canvas is emptied, then one element is
    appended per block.  The result is the new child list. *)
Definition applyLayout (l : layout) (canvas : list element) : list element :=
  let canvas := @nil element in
  match la_blocks l with
  | Some bs => fold_left (fun c d => c ++ [block_element d]) bs canvas
  | None => canvas
  end.

(** [loadLayout()] from its [await] on. *)
Definition loadLayout (resp : Editor.response layout) (canvas : list element)
    : list element :=
  match resp with
  | Editor.Http true (Some data) => applyLayout data canvas
  | _ => applyLayout getDefaultLayout canvas
  end.

End LegacyApp.

(** ** The legacy layout script and its debounced save: [legacy/src/blocks.js] *)

Module LegacyBlocks.
Import JS.

(** *** [parseInt] *)

(** The white space [parseInt] skips, as far as it is ASCII: tab, line
    feed, vertical tab, form feed, carriage return and space. *)
Definition is_space (c : Ascii.ascii) : bool :=
  let n := Z.of_N (Ascii.N_of_ascii c) in
  ((9 <=? n) && (n <=? 13)) || (n =? 32).

Fixpoint trim_start (text : string) : string :=
  match text with
  | String c rest => if is_space c then trim_start rest else text
  | EmptyString => text
  end.

(** The value of [c] as a digit of the given radix. *)
Definition digit (radix : Z) (c : Ascii.ascii) : option Z :=
  let n := Z.of_N (Ascii.N_of_ascii c) in
  let v :=
    if (48 <=? n) && (n <=? 57) then Some (n - 48)
    else if (97 <=? n) && (n <=? 102) then Some (n - 87)
    else if (65 <=? n) && (n <=? 70) then Some (n - 55)
    else None in
  match v with
  | Some d => if d <? radix then Some d else None
  | None => None
  end.

(** The integer written by the longest prefix of digits; [acc] is the
    value of the digits read so far, [None] when there are none. *)
Fixpoint digits (radix : Z) (text : string) (acc : option Z) : option Z :=
  match text with
  | String c rest =>
      match digit radix c with
      | Some d =>
          digits radix rest
            (Some (radix * (match acc with Some a => a | None => 0 end) + d))
      | None => acc
      end
  | EmptyString => acc
  end.

(** The double nearest to an integer; from [2^1024 - 2^970] on that is
    an infinity. *)
Definition number_of_Z (z : Z) : num :=
  if 2 ^ 1024 - 2 ^ 970 <=? Z.abs z then Inf (0 <? z)
  else Fin (to_double (inject_Z z)).

(** [parseInt(text)], without a radix: leading white space, a sign, a
    [0x] prefix, then the digits; [NaN] when there is no digit.  (For
    more than 20 decimal digits an engine may read the digits after
    the 20th as zeros.) *)
Definition parseInt (text : string) : num :=
  let text := trim_start text in
  let '(negative, text) :=
    match text with
    | String "-"%char rest => (true, rest)
    | String "+"%char rest => (false, rest)
    | _ => (false, text)
    end in
  let '(radix, text) :=
    match text with
    | String "0"%char (String "x"%char rest) => (16, rest)
    | String "0"%char (String "X"%char rest) => (16, rest)
    | _ => (10, text)
    end in
  match digits radix text None with
  | Some z => number_of_Z (if negative then - z else z)
  | None => NaN
  end.

(** *** The page *)

(** A [.block] element of [#block-layer], with what [serializeLayout]
    reads from it: two [data-] attributes ([None]: the attribute is
    missing and the property [undefined]), four inline lengths, the
    inline [z-index], and the [innerHTML] of its first [.block-inner]
    descendant ([None]: there is none, and [querySelector] gives
    [null]). *)
Record element : Type := Element {
  dataset_id : option string;
  dataset_type : option string;
  style_left : string;
  style_top : string;
  style_width : string;
  style_height : string;
  style_zIndex : string;
  block_inner : option string;
}.

(** [window.state.project] and the [.block] elements of [#block-layer],
    in document order. *)
Record document : Type := Document {
  project : string;
  layer : list element;
}.

(** An entry of the array [serializeLayout] returns. *)
Record entry : Type := Entry {
  e_id : option string;
  e_type : option string;
  e_x : num;
  e_y : num;
  e_w : num;
  e_h : num;
  e_content : string;
  e_z : string;
}.

(** The body of the arrow function of [serializeLayout]; [None] is the
    [TypeError] of reading [innerHTML] of [null]. *)
Definition serialize (block : element) : option entry :=
  match block_inner block with
  | Some html =>
      Some {| e_id := dataset_id block;
              e_type := dataset_type block;
              e_x := parseInt (style_left block);
              e_y := parseInt (style_top block);
              e_w := parseInt (style_width block);
              e_h := parseInt (style_height block);
              e_content := html;
              e_z := style_zIndex block |}
  | None => None
  end.

(** [serializeLayout()]. *)
Definition serializeLayout (d : document) : option (list entry) :=
  mapM serialize (layer d).

(** *** Timers and requests *)

(** A pending [setTimeout(() => saveLayout(), ..)].  The only other
    timers of these scripts are those of [utils.C], which remove a
    toast after 2400 ms; toasts live in [document.body], outside the
    layer, and the ids of their timers are never stored in
    [window.saveTimer], so neither toasts nor their timers are
    represented. *)
Record timer : Type := Timer { timer_id : nat; due : Z }.

(** The clock in milliseconds, the pending timers in the order in
    which they were set, and [window.saveTimer]. *)
Record clock : Type := Clock {
  now : Z;
  timers : list timer;
  next_timer : nat;
  saveTimer : option nat;
}.

(** One [fetch('/save-layout', ..)]: when it was sent, and the object
    whose JSON text is its body. *)
Record save_request : Type := SaveRequest {
  sent_at : Z;
  body_layout : list entry;
  body_project : string;
}.

Record state : Type := State {
  doc : document;
  clk : clock;
  requests : list save_request;
}.

(** [saveLayout()] up to its [await].  When [serializeLayout] throws,
    the [catch] shows the toast 'Save failed' and nothing is sent; what
    follows the [await] shows a toast as well, and no more. *)
Definition saveLayout (s : state) : state :=
  match serializeLayout (doc s) with
  | Some layout =>
      {| doc := doc s; clk := clk s;
         requests := requests s
                     ++ [SaveRequest (now (clk s)) layout (project (doc s))] |}
  | None => s
  end.

(** [clearTimeout(id)]. *)
Definition clearTimeout (id : option nat) (c : clock) : clock :=
  match id with
  | Some i =>
      {| now := now c;
         timers := List.filter (fun tm => negb (Nat.eqb (timer_id tm) i)) (timers c);
         next_timer := next_timer c; saveTimer := saveTimer c |}
  | None => c
  end.

(** [setTimeout(() => saveLayout(), delay)]: the id of the new timer
    and the clock with the timer pending. *)
Definition setTimeout (delay : Z) (c : clock) : nat * clock :=
  (next_timer c,
   {| now := now c;
      timers := timers c ++ [Timer (next_timer c) (now c + delay)];
      next_timer := S (next_timer c); saveTimer := saveTimer c |}).

(** [scheduleSave(label)]. *)
Definition scheduleSave (s : state) : state :=
  let c := clearTimeout (saveTimer (clk s)) (clk s) in
  let '(id, c) := setTimeout 500 c in
  {| doc := doc s;
     clk := {| now := now c; timers := timers c; next_timer := next_timer c;
               saveTimer := Some id |};
     requests := requests s |}.

(** Time passes until [t]: the timers due by then run, in the order
    in which they were set, each at its own due time. *)
Definition is_due (t : Z) (tm : timer) : bool := due tm <=? t.

Definition fire (s : state) (tm : timer) : state :=
  let c := clk s in
  saveLayout
    {| doc := doc s;
       clk := {| now := Z.max (now c) (due tm); timers := timers c;
                 next_timer := next_timer c; saveTimer := saveTimer c |};
       requests := requests s |}.

Definition advance (t : Z) (s : state) : state :=
  let c := clk s in
  let ready := List.filter (is_due t) (timers c) in
  let waiting := List.filter (fun tm => negb (is_due t tm)) (timers c) in
  let s1 := fold_left fire ready
              {| doc := doc s;
                 clk := {| now := now c; timers := waiting;
                           next_timer := next_timer c; saveTimer := saveTimer c |};
                 requests := requests s |} in
  {| doc := doc s1;
     clk := {| now := Z.max (now (clk s1)) t; timers := timers (clk s1);
               next_timer := next_timer (clk s1); saveTimer := saveTimer (clk s1) |};
     requests := requests s1 |}.

(** *** Edits *)

(** An edit, as the layout script sees it: a caller changes the page
    and then calls [scheduleSave(label)].  The callers are outside the
    layout script; an edit is any change of the page. *)
Definition edit : Type := document -> document.

Definition apply_edit (change : edit) (s : state) : state :=
  scheduleSave {| doc := change (doc s); clk := clk s; requests := requests s |}.

(** An edit made at time [t]. *)
Definition at_time (s : state) (te : Z * edit) : state :=
  apply_edit (snd te) (advance (fst te) s).

Definition run_burst (b : list (Z * edit)) (s : state) : state :=
  fold_left at_time b s.

(** The page after the changes of a burst, in their order. *)
Definition changed (b : list (Z * edit)) (d : document) : document :=
  fold_left (fun d te => snd te d) b d.

(** Each edit of the burst comes less than 500 ms after the one
    before it, the first of them after [t0]. *)
Fixpoint rapid (t0 : Z) (b : list (Z * edit)) : Prop :=
  match b with
  | [] => True
  | te :: rest => (t0 <= fst te < t0 + 500) /\ rapid (fst te) rest
  end.

(** The time of the last edit of a burst that follows an edit at [t0]. *)
Definition last_time (t0 : Z) (b : list (Z * edit)) : Z :=
  fold_left (fun _ te => fst te) b t0.

(** Every pending timer is the one [window.saveTimer] names. *)
Definition timers_ok (c : clock) : Prop :=
  Forall (fun tm => saveTimer c = Some (timer_id tm)) (timers c).

(** The save timer is set, due 500 ms after [t], and it is [t] now. *)
Definition armed (c : clock) (t : Z) : Prop :=
  exists i, timers c = [Timer i (t + 500)] /\ saveTimer c = Some i /\ now c = t.

(** A payload that reflects the page: the entry of a block carries
    the attributes, the lengths as integers, the stacking order and the
    content the block has. *)
Definition reflects (block : element) (e : entry) : Prop :=
  e_id e = dataset_id block
  /\ e_type e = dataset_type block
  /\ e_x e = parseInt (style_left block)
  /\ e_y e = parseInt (style_top block)
  /\ e_w e = parseInt (style_width block)
  /\ e_h e = parseInt (style_height block)
  /\ Some (e_content e) = block_inner block
  /\ e_z e = style_zIndex block.

(** Sample data: a page with one block and no pending timer at time
    1000; then the text of the block is changed five times, 100 ms
    apart. *)
Definition sample_element (html : string) : element :=
  {| dataset_id := Some "b_1"; dataset_type := Some "body";
     style_left := "100px"; style_top := "100px";
     style_width := "200px"; style_height := "150px";
     style_zIndex := "1"; block_inner := Some html |}.

Definition sample_start : state :=
  {| doc := Document "default" [sample_element "Body text here..."];
     clk := Clock 1000 [] O None;
     requests := [] |}.

Definition retype (html : string) : edit :=
  fun d =>
    {| project := project d;
       layer := map (fun b =>
                       {| dataset_id := dataset_id b; dataset_type := dataset_type b;
                          style_left := style_left b; style_top := style_top b;
                          style_width := style_width b; style_height := style_height b;
                          style_zIndex := style_zIndex b;
                          block_inner := (fun _ => html) <$> block_inner b |})
                  (layer d) |}.

Definition sample_burst : list (Z * edit) :=
  [(1100, retype "H"); (1200, retype "He"); (1300, retype "Hel");
   (1400, retype "Hell"); (1500, retype "Hello")].

End LegacyBlocks.

(** ** The block endpoint of the server: [block_api] *)

Module Server.
Import JS.

(** *** Python values *)

(** The values [request.get_json()] returns and the handler stores: a
    float is a [num] whose finite values are doubles; a dict is the list
    of its items in insertion order, no two keys equal.  Minus zero is
    not kept apart from zero. *)
#[warnings="-register-all"]
Inductive pyval : Type :=
| PyNone
| PyBool (b : bool)
| PyInt (z : Z)
| PyFloat (x : num)
| PyStr (s : string)
| PyList (items : list pyval)
| PyDict (entries : list (pyval * pyval)).

Inductive exn : Type := AttributeError | KeyError | TypeError | ValueError.

Inductive result (A : Type) : Type :=
| Ok (a : A)
| Raise (e : exn).
Arguments Ok {A} a.
Arguments Raise {A} e.

(** [bool(v)]. *)
Definition truthy (v : pyval) : bool :=
  match v with
  | PyNone => false
  | PyBool b => b
  | PyInt z => negb (z =? 0)
  | PyFloat (Fin q) => negb (Qeq_bool q 0)
  | PyFloat _ => true
  | PyStr s => negb (String.eqb s EmptyString)
  | PyList items => match items with [] => false | _ => true end
  | PyDict entries => match entries with [] => false | _ => true end
  end.

(** The value of a [bool], an [int] or a [float] as a number. *)
Definition number (v : pyval) : option num :=
  match v with
  | PyBool b => Some (Fin (if b then 1 else 0))
  | PyInt z => Some (Fin (inject_Z z))
  | PyFloat x => Some x
  | _ => None
  end.

(** Equality of numbers: by value, an infinity only equal to itself,
    [NaN] equal to nothing. *)
Definition num_eqb (x y : num) : bool :=
  match x, y with
  | Fin p, Fin q => Qeq_bool p q
  | Inf a, Inf b => Bool.eqb a b
  | _, _ => false
  end.

Definition is_nan (v : pyval) : bool :=
  match v with PyFloat NaN => true | _ => false end.

(** [a == b] ([same = false]) and [a is b or a == b] ([same = true]),
    the test by which lists and dicts compare their members and dicts
    find a key.  Numbers compare by value across [bool], [int] and
    [float]; lists member by member; dicts whatever the order of their
    items.  Identity matters for [NaN] alone, and every [NaN] of a
    request body is the one object [json.decoder.NaN]. *)
Fixpoint eqb_with (same : bool) (a b : pyval) {struct a} : bool :=
  match a, b with
  | PyNone, PyNone => true
  | PyStr s, PyStr t => String.eqb s t
  | PyList l, PyList m =>
      (fix members (l m : list pyval) {struct l} : bool :=
         match l, m with
         | [], [] => true
         | x :: l', y :: m' => eqb_with true x y && members l' m'
         | _, _ => false
         end) l m
  | PyDict d, PyDict e =>
      Nat.eqb (length d) (length e)
      && (fix items (d : list (pyval * pyval)) {struct d} : bool :=
            match d with
            | [] => true
            | (k, v) :: d' =>
                (fix find (e : list (pyval * pyval)) {struct e} : bool :=
                   match e with
                   | [] => false
                   | (k', v') :: e' =>
                       if eqb_with true k k' then eqb_with true v v' else find e'
                   end) e
                && items d'
            end) d
  | _, _ =>
      match number a, number b with
      | Some x, Some y => (same && is_nan a && is_nan b) || num_eqb x y
      | _, _ => false
      end
  end.

Definition py_eq (a b : pyval) : bool := eqb_with false a b.
Definition same_or_eq (a b : pyval) : bool := eqb_with true a b.

(** [hash(v)] raises [TypeError] for lists and dicts. *)
Definition hashable (v : pyval) : bool :=
  match v with
  | PyList _ | PyDict _ => false
  | _ => true
  end.

(** *** Dicts *)

(** The value stored under a key equal to [key]. *)
Fixpoint lookup (key : pyval) (d : list (pyval * pyval)) : option pyval :=
  match d with
  | [] => None
  | (k, v) :: rest => if same_or_eq k key then Some v else lookup key rest
  end.

(** [d[key] = value]: the item with an equal key gets the value and
    keeps its key and its place; without one a new item comes last. *)
Fixpoint store (key value : pyval) (d : list (pyval * pyval))
    : list (pyval * pyval) :=
  match d with
  | [] => [(key, value)]
  | (k, v) :: rest =>
      if same_or_eq k key then (k, value) :: rest
      else (k, v) :: store key value rest
  end.

(** [v[key]] for a string [key]. *)
Definition getitem (v : pyval) (key : string) : result pyval :=
  match v with
  | PyDict d =>
      match lookup (PyStr key) d with
      | Some x => Ok x
      | None => Raise KeyError
      end
  | _ => Raise TypeError
  end.

(** [v.get(key, default)]; only dicts have the method. *)
Definition get (v : pyval) (key : string) (default : pyval) : result pyval :=
  match v with
  | PyDict d =>
      Ok (match lookup (PyStr key) d with Some x => x | None => default end)
  | _ => Raise AttributeError
  end.

(** *** Strings as sequences *)

(** The characters of a string, each with the bytes that encode it. *)
Definition is_continuation (c : ascii) : bool :=
  let n := Z.of_N (N_of_ascii c) in (128 <=? n) && (n <? 192).

(** The string goes on with a continuation byte. *)
Definition continues (s : string) : bool :=
  match s with
  | String c _ => is_continuation c
  | EmptyString => false
  end.

Fixpoint chars (s : string) : list string :=
  match s with
  | EmptyString => []
  | String c rest =>
      match chars rest with
      | x :: xs =>
          if continues rest then String c x :: xs
          else String c EmptyString :: x :: xs
      | [] => [String c EmptyString]
      end
  end.

Fixpoint starts_with (p s : string) : bool :=
  match p, s with
  | EmptyString, _ => true
  | String a p', String b s' => Ascii.eqb a b && starts_with p' s'
  | _, _ => false
  end.

Fixpoint occurs_in (p s : string) : bool :=
  starts_with p s
  || match s with
     | String _ s' => occurs_in p s'
     | EmptyString => false
     end.

(** [iter(v)]: the members of a list, the keys of a dict, the
    characters of a string. *)
Definition iterate (v : pyval) : result (list pyval) :=
  match v with
  | PyList items => Ok items
  | PyDict d => Ok (map fst d)
  | PyStr s => Ok (map PyStr (chars s))
  | _ => Raise TypeError
  end.

(** [key in v] for a string [key]. *)
Definition contains (v : pyval) (key : string) : result bool :=
  match v with
  | PyDict d => Ok (match lookup (PyStr key) d with Some _ => true | None => false end)
  | PyList items => Ok (existsb (fun x => same_or_eq x (PyStr key)) items)
  | PyStr s => Ok (occurs_in key s)
  | _ => Raise TypeError
  end.

(** [v[key] = value] for a string [key]. *)
Definition setitem (v : pyval) (key : string) (value : pyval) : result pyval :=
  match v with
  | PyDict d => Ok (PyDict (store (PyStr key) value d))
  | _ => Raise TypeError
  end.

(** [v.append(x)]; only lists have the method. *)
Definition append (v x : pyval) : result pyval :=
  match v with
  | PyList items => Ok (PyList (items ++ [x]))
  | _ => Raise AttributeError
  end.

(** [d.update(updates)] on the items of a dict: a dict is merged key
    by key; any other iterable must yield sequences of two members, a
    key and a value.  The dict keeps what was stored before an
    exception. *)
Fixpoint update_pairs (pairs : list pyval) (d : list (pyval * pyval))
    : list (pyval * pyval) * option exn :=
  match pairs with
  | [] => (d, None)
  | item :: rest =>
      match iterate item with
      | Ok [k; v] =>
          if hashable k then update_pairs rest (store k v d)
          else (d, Some TypeError)
      | Ok _ => (d, Some ValueError)
      | Raise e => (d, Some e)
      end
  end.

Definition update (d : list (pyval * pyval)) (updates : pyval)
    : list (pyval * pyval) * option exn :=
  match updates with
  | PyDict u => (fold_left (fun d kv => store (fst kv) (snd kv) d) u d, None)
  | _ =>
      match iterate updates with
      | Ok pairs => update_pairs pairs d
      | Raise e => (d, Some e)
      end
  end.

(** *** The handler *)

(** The global [layouts]: a dict from projects to layouts.  No object
    is stored under two keys: a layout comes from one request body or
    from one call of [get_default_layout]. *)
Definition layouts_dict : Type := list (pyval * pyval).

(** A computation on [layouts] that returns or raises. *)
Definition M (A : Type) : Type := layouts_dict -> layouts_dict * result A.

Definition ret {A : Type} (a : A) : M A := fun st => (st, Ok a).

Definition lift {A : Type} (r : result A) : M A := fun st => (st, r).

Definition bind {A B : Type} (m : M A) (k : A -> M B) : M B :=
  fun st =>
    match m st with
    | (st', Ok a) => k a st'
    | (st', Raise e) => (st', Raise e)
    end.

Notation "'let*' x := m 'in' k" := (bind m (fun x => k))
  (at level 10, x name, m at level 100, k at level 200).

(** [key in layouts]. *)
Definition has_layout (key : pyval) : M bool :=
  fun st =>
    if hashable key
    then (st, Ok (match lookup key st with Some _ => true | None => false end))
    else (st, Raise TypeError).

(** [layouts[key]], for a key that is there. *)
Definition layout_at (key : pyval) : M pyval :=
  fun st =>
    match lookup key st with
    | Some layout => (st, Ok layout)
    | None => (st, Raise KeyError)
    end.

(** [layouts[key] = layout], and the same for a layout changed in
    place. *)
Definition set_layout (key layout : pyval) : M unit :=
  fun st => (store key layout st, Ok tt).

Definition get_default_layout : pyval :=
  PyDict
    [(PyStr "columns", PyInt 3);
     (PyStr "baseline", PyInt 24);
     (PyStr "gutter", PyInt 32);
     (PyStr "snap", PyBool true);
     (PyStr "zoom", PyFloat (Fin 1));
     (PyStr "orientation", PyStr "portrait");
     (PyStr "format", PyStr "A4");
     (PyStr "dimensions",
      PyDict [(PyStr "width", PyInt 794); (PyStr "height", PyInt 1123)]);
     (PyStr "blocks", PyList []);
     (PyStr "layers",
      PyList [PyDict [(PyStr "id", PyStr "layer-main");
                      (PyStr "name", PyStr "Layer 1");
                      (PyStr "order", PyInt 0)]]);
     (PyStr "activeLayer", PyStr "layer-main")].

(** [[b for b in blocks if b['id'] != block_id]]. *)
Fixpoint without_id (block_id : pyval) (bs : list pyval) : result (list pyval) :=
  match bs with
  | [] => Ok []
  | b :: rest =>
      match getitem b "id" with
      | Raise e => Raise e
      | Ok i =>
          match without_id block_id rest with
          | Raise e => Raise e
          | Ok rest' => Ok (if negb (py_eq i block_id) then b :: rest' else rest')
          end
      end
  end.

(** What the [update] loop does to the blocks it iterates over. *)
Inductive updated : Type :=
| Found (bs : list pyval) (block : pyval) (raised : option exn)
| NotFound
| Failed (e : exn).

(** The [for] loop of the [update] branch: the first block whose id
    equals [block_id] takes the updates, in its place. *)
Fixpoint update_first (block_id updates : pyval) (bs : list pyval) : updated :=
  match bs with
  | [] => NotFound
  | b :: rest =>
      match getitem b "id" with
      | Raise e => Failed e
      | Ok i =>
          if py_eq i block_id then
            match b with
            | PyDict d =>
                let '(d', raised) := update d updates in
                Found (PyDict d' :: rest) (PyDict d') raised
            | _ => Failed TypeError
            end
          else
            match update_first block_id updates rest with
            | Found rest' b' raised => Found (b :: rest') b' raised
            | NotFound => NotFound
            | Failed e => Failed e
            end
      end
  end.

(** The list behind [layout['blocks']] replaced by [bs]: an assignment
    to the key, or what a change of the list in place leaves. *)
Definition with_blocks (layout : pyval) (bs : list pyval) : pyval :=
  match layout with
  | PyDict d => PyDict (store (PyStr "blocks") (PyList bs) d)
  | _ => layout
  end.

Definition success : pyval := PyDict [(PyStr "success", PyBool true)].

Definition success_with (block : pyval) : pyval :=
  PyDict [(PyStr "success", PyBool true); (PyStr "block", block)].

Definition failure (error : string) : pyval :=
  PyDict [(PyStr "success", PyBool false); (PyStr "error", PyStr error)].

(** [block_api()]: [body] is what [request.get_json()] returns,
    [uuid] is [uuid.uuid4().hex[:8]]; the result is the object given to
    [jsonify], or the exception raised. *)
Definition block_api (body : pyval) (uuid : string) : M pyval :=
  let data := if truthy body then body else PyDict [] in
  let* project := lift (get data "project" (PyStr "default")) in
  let* operation := lift (get data "operation" PyNone) in
  let* present := has_layout project in
  let* _ := (if present then ret tt else set_layout project get_default_layout) in
  let* layout := layout_at project in
  if py_eq operation (PyStr "add") then
    let* block := lift (get data "block" (PyDict [])) in
    let* has_id := lift (contains block "id") in
    let* block :=
      lift (if has_id then Ok block
            else setitem block "id" (PyStr (String.append "block-" uuid))) in
    let* blocks := lift (getitem layout "blocks") in
    match blocks with
    | PyList bs =>
        let* _ := set_layout project (with_blocks layout (bs ++ [block])) in
        ret (success_with block)
    | _ => lift (Raise AttributeError)
    end
  else if py_eq operation (PyStr "update") then
    let* block_id := lift (get data "block_id" PyNone) in
    let* updates := lift (get data "updates" (PyDict [])) in
    let* blocks := lift (getitem layout "blocks") in
    let* members := lift (iterate blocks) in
    match update_first block_id updates members with
    | Found bs block raised =>
        let* _ := set_layout project (with_blocks layout bs) in
        match raised with
        | Some e => lift (Raise e)
        | None => ret (success_with block)
        end
    | NotFound => ret (failure "Block not found")
    | Failed e => lift (Raise e)
    end
  else if py_eq operation (PyStr "delete") then
    let* block_id := lift (get data "block_id" PyNone) in
    let* blocks := lift (getitem layout "blocks") in
    let* members := lift (iterate blocks) in
    let* remaining := lift (without_id block_id members) in
    let* _ := set_layout project (with_blocks layout remaining) in
    ret success
  else ret (failure "Invalid operation").

(** *** Requests and layouts of the statements *)

(** The body of the delete request of [deleteBlock]. *)
Definition delete_request (project : string) (block_id : pyval) : pyval :=
  PyDict [(PyStr "project", PyStr project);
          (PyStr "operation", PyStr "delete");
          (PyStr "block_id", block_id)].

(** The layout the handler works on for a project: the stored one, or
    the default layout it stores first. *)
Definition layout_of (project : string) (layouts : layouts_dict) : pyval :=
  match lookup (PyStr project) layouts with
  | Some layout => layout
  | None => get_default_layout
  end.

(** Its blocks, when [layout['blocks']] is a list. *)
Definition blocks_of (project : string) (layouts : layouts_dict)
    : option (list pyval) :=
  match getitem (layout_of project layouts) "blocks" with
  | Ok (PyList bs) => Some bs
  | _ => None
  end.

(** [b['id']], when [b] is a dict with the key. *)
Definition id_of (b : pyval) : option pyval :=
  match getitem b "id" with
  | Ok i => Some i
  | Raise _ => None
  end.

(** Every block is a dict with an ['id'] entry. *)
Definition all_have_id (bs : list pyval) : Prop :=
  Forall (fun b => is_Some (id_of b)) bs.

(** The blocks a delete of [block_id] keeps: [b['id'] != block_id]. *)
Definition keeps (block_id : pyval) (b : pyval) : bool :=
  match id_of b with
  | Some i => negb (py_eq i block_id)
  | None => false
  end.

(** Sample data: four blocks, two of them with the id ['a'] and one
    with the id [1]. *)
Definition sample_block (id : pyval) (left : Z) : pyval :=
  PyDict
    [(PyStr "id", id);
     (PyStr "type", PyStr "text");
     (PyStr "position",
      PyDict [(PyStr "left", PyInt left); (PyStr "top", PyInt 100);
              (PyStr "width", PyInt 200); (PyStr "height", PyInt 150)])].

Definition sample_blocks : list pyval :=
  [sample_block (PyStr "a") 1; sample_block (PyStr "b") 2;
   sample_block (PyStr "a") 3; sample_block (PyInt 1) 4].

Definition sample_layouts : layouts_dict :=
  [(PyStr "demo", with_blocks get_default_layout sample_blocks)].

End Server.
(** ** Folds and filters *)

Module ListFacts.

Section Fold.
Context {A B : Type} (P : A -> Prop) (f : A -> B -> A).

(** A property every step keeps holds after the whole fold. *)
Lemma fold_left_preserves (l : list B) (a : A) :
  (forall a b, P a -> P (f a b)) -> P a -> P (fold_left f l a).
Proof.
  intros Hf. revert a. induction l as [|x l IH]; intros a Ha; simpl; auto.
Qed.
End Fold.

Section Filter.
Context {A : Type} (f : A -> bool).

Lemma filter_none (l : list A) :
  Forall (fun x => f x = false) l -> List.filter f l = [].
Proof.
  induction 1 as [|x l Hx Hl IH]; simpl; [done|]. by rewrite Hx.
Qed.

Lemma filter_all (l : list A) :
  Forall (fun x => f x = true) l -> List.filter f l = l.
Proof.
  induction 1 as [|x l Hx Hl IH]; simpl; [done|]. rewrite Hx. by f_equal.
Qed.

Lemma filter_idem (l : list A) :
  List.filter f (List.filter f l) = List.filter f l.
Proof.
  induction l as [|x l IH]; simpl; [done|].
  destruct (f x) eqn:E; simpl; rewrite ?E, IH; done.
Qed.
End Filter.

End ListFacts.

(** ** Rounding to binary64 *)

Module JSFacts.
Import JS.

Lemma round_half_even_ge n d m : 0 < d -> m * d <= n -> m <= round_half_even n d.
Proof.
  intros Hd H. unfold round_half_even.
  assert (Hq : m <= n / d) by (apply Z.div_le_lower_bound; lia).
  destruct (2 * (n mod d) ?= d); [destruct (Z.even (n / d))| |]; lia.
Qed.

Lemma round_half_even_le n d m : 0 < d -> n <= m * d -> round_half_even n d <= m.
Proof.
  intros Hd H. unfold round_half_even.
  assert (Hq : n / d <= m) by (apply Z.div_le_upper_bound; lia).
  pose proof (Z.div_mod n d ltac:(lia)) as Hn.
  pose proof (Z.mod_pos_bound n d Hd) as Hr.
  destruct (Z.eq_dec (n / d) m) as [E|E].
  - assert (Hz : n mod d = 0) by nia.
    assert (Hc : (2 * (n mod d) ?= d) = Lt) by (apply Z.compare_lt_iff; lia).
    rewrite Hc. lia.
  - destruct (2 * (n mod d) ?= d); [destruct (Z.even (n / d))| |]; lia.
Qed.

(** The exponent [binade] starts from is not above that of [n / d]. *)
Lemma reaches_floor n d :
  0 < n -> 0 < d ->
  let t := Z.log2 n - Z.log2 d in
  reaches n d (if reaches n d t then t else t - 1) = true.
Proof.
  intros Hn Hd t. destruct (reaches n d t) eqn:E; [exact E|].
  pose proof (Z.log2_spec n Hn) as [Hn1 Hn2].
  pose proof (Z.log2_spec d Hd) as [Hd1 Hd2].
  pose proof (Z.log2_nonneg n) as Ha. pose proof (Z.log2_nonneg d) as Hb.
  fold t. unfold reaches. destruct (0 <=? t - 1) eqn:Et.
  - apply Z.leb_le in Et. apply Z.leb_le.
    assert (H : 2 ^ Z.succ (Z.log2 d) * 2 ^ (t - 1) = 2 ^ Z.log2 n).
    { rewrite <- Z.pow_add_r by lia. f_equal. unfold t. lia. }
    assert (0 < 2 ^ (t - 1)) by (apply Z.pow_pos_nonneg; lia).
    nia.
  - apply Z.leb_gt in Et. apply Z.leb_le.
    assert (H : 2 ^ Z.log2 n * 2 ^ (- (t - 1)) = 2 ^ Z.succ (Z.log2 d)).
    { rewrite <- Z.pow_add_r by lia. f_equal. unfold t. lia. }
    assert (0 < 2 ^ (- (t - 1))) by (apply Z.pow_pos_nonneg; lia).
    nia.
Qed.

Lemma to_double_pos_nonneg n d : 0 < n -> 0 < d -> (0 <= to_double_pos n d)%Q.
Proof.
  intros Hn Hd. unfold to_double_pos.
  destruct (0 <=? binade n d) eqn:E.
  - apply Z.leb_le in E.
    assert (0 < 2 ^ binade n d) by (apply Z.pow_pos_nonneg; lia).
    assert (0 <= round_half_even n (d * 2 ^ binade n d))
      by (apply round_half_even_ge; nia).
    change 0%Q with (inject_Z 0). rewrite <- Zle_Qle. nia.
  - assert (0 <= round_half_even (n * 2 ^ (- binade n d)) d).
    { apply round_half_even_ge; [lia|].
      apply Z.leb_gt in E.
      assert (0 < 2 ^ (- binade n d)) by (apply Z.pow_pos_nonneg; lia). nia. }
    rewrite Qred_correct. unfold Qle. simpl. lia.
Qed.

(** From the smallest subnormal number on, the double nearest to
    [n / d] is positive. *)
Lemma to_double_pos_positive n d :
  0 < n -> 0 < d -> d <= n * 2 ^ 1074 -> (0 < to_double_pos n d)%Q.
Proof.
  intros Hn Hd Hx. unfold to_double_pos.
  pose proof (reaches_floor n d Hn Hd) as Hf. cbv zeta in Hf.
  unfold binade.
  set (t' := if reaches n d (Z.log2 n - Z.log2 d)
             then Z.log2 n - Z.log2 d else Z.log2 n - Z.log2 d - 1) in *.
  set (e := Z.max (t' - 52) (-1074)).
  assert (He : (e = -1074 /\ t' - 52 <= -1074) \/ (e = t' - 52 /\ -1074 <= t' - 52))
    by (unfold e; lia).
  clearbody e t'.
  destruct (0 <=? e) eqn:E.
  - apply Z.leb_le in E.
    assert (Ht : 0 <= t') by lia.
    unfold reaches in Hf. apply Z.leb_le in Ht as Ht'. rewrite Ht' in Hf.
    apply Z.leb_le in Hf.
    assert (He2 : e = t' - 52) by lia.
    assert (Hp : 2 ^ e <= 2 ^ t') by (apply Z.pow_le_mono_r; lia).
    assert (0 < 2 ^ e) by (apply Z.pow_pos_nonneg; lia).
    assert (1 <= round_half_even n (d * 2 ^ e)) by (apply round_half_even_ge; nia).
    change 0%Q with (inject_Z 0). rewrite <- Zlt_Qlt. nia.
  - apply Z.leb_gt in E.
    assert (Hp : 0 < 2 ^ (- e)) by (apply Z.pow_pos_nonneg; lia).
    assert (Hd' : d <= n * 2 ^ (- e)).
    { destruct He as [[-> _]|[-> Hlow]]; [exact Hx|].
      unfold reaches in Hf. destruct (0 <=? t') eqn:Et.
      - apply Z.leb_le in Hf. apply Z.leb_le in Et.
        assert (0 < 2 ^ t') by (apply Z.pow_pos_nonneg; lia).
        nia.
      - apply Z.leb_le in Hf. apply Z.leb_gt in Et.
        assert (2 ^ (- t') <= 2 ^ (- (t' - 52))) by (apply Z.pow_le_mono_r; lia).
        nia. }
    assert (1 <= round_half_even (n * 2 ^ (- e)) d) by (apply round_half_even_ge; lia).
    rewrite Qred_correct. unfold Qlt. simpl. lia.
Qed.

(** A power of two that bounds [n / d] bounds the double nearest to it. *)
Lemma to_double_pos_le n d k :
  0 < n -> 0 < d -> 0 <= k -> n <= d * 2 ^ k ->
  (to_double_pos n d <= inject_Z (2 ^ k))%Q.
Proof.
  intros Hn Hd Hk Hx. unfold to_double_pos.
  pose proof (reaches_floor n d Hn Hd) as Hf. cbv zeta in Hf.
  unfold binade.
  set (t' := if reaches n d (Z.log2 n - Z.log2 d)
             then Z.log2 n - Z.log2 d else Z.log2 n - Z.log2 d - 1) in *.
  set (e := Z.max (t' - 52) (-1074)).
  assert (He : (e = -1074 /\ t' - 52 <= -1074) \/ (e = t' - 52 /\ -1074 <= t' - 52))
    by (unfold e; lia).
  clearbody e t'.
  assert (H2k : 0 < 2 ^ k) by (apply Z.pow_pos_nonneg; lia).
  destruct (0 <=? e) eqn:E.
  - apply Z.leb_le in E.
    assert (Ht : 0 <= t') by lia.
    unfold reaches in Hf. apply Z.leb_le in Ht as Ht'. rewrite Ht' in Hf.
    apply Z.leb_le in Hf.
    assert (He2 : e = t' - 52) by lia.
    assert (Htk : t' <= k).
    { apply (Z.pow_le_mono_r_iff 2); [lia|lia|]. nia. }
    assert (Hsplit : 2 ^ k = 2 ^ (k - e) * 2 ^ e).
    { rewrite <- Z.pow_add_r by lia. f_equal. lia. }
    assert (0 < 2 ^ e) by (apply Z.pow_pos_nonneg; lia).
    assert (round_half_even n (d * 2 ^ e) <= 2 ^ (k - e)).
    { apply round_half_even_le; [nia|]. rewrite Hsplit in Hx. nia. }
    rewrite <- Zle_Qle. rewrite Hsplit. nia.
  - apply Z.leb_gt in E.
    assert (Hp : 0 < 2 ^ (- e)) by (apply Z.pow_pos_nonneg; lia).
    assert (round_half_even (n * 2 ^ (- e)) d <= 2 ^ k * 2 ^ (- e)).
    { apply round_half_even_le; [lia|]. nia. }
    rewrite Qred_correct. unfold Qle. simpl.
    rewrite Z2Pos.id by lia. lia.
Qed.

Lemma to_double_comp x y : (x == y)%Q -> to_double x = to_double y.
Proof. intros E. unfold to_double. by rewrite (Qred_complete x y E). Qed.

Lemma to_double_nonneg x : (0 <= x)%Q -> (0 <= to_double x)%Q.
Proof.
  intros H. unfold to_double. rewrite <- (Qred_correct x) in H.
  destruct (Qred x) as [n d]. simpl. destruct n as [|n|n].
  - apply Qle_refl.
  - by apply to_double_pos_nonneg.
  - unfold Qle in H. simpl in H. lia.
Qed.

Lemma to_double_positive x :
  (1 <= x * inject_Z (2 ^ 1074))%Q -> (0 < to_double x)%Q.
Proof.
  intros H. unfold to_double. rewrite <- (Qred_correct x) in H.
  destruct (Qred x) as [n d]. cbn [Qnum Qden].
  assert (Hp : 0 < 2 ^ 1074) by (apply Z.pow_pos_nonneg; lia).
  unfold Qle in H. cbn [Qnum Qden Qmult inject_Z] in H.
  rewrite Pos.mul_1_r, Z.mul_1_l, Z.mul_1_r in H.
  destruct n as [|n|n]; [lia| |lia].
  apply to_double_pos_positive; lia.
Qed.

Lemma to_double_le_pow2 x k :
  0 <= k -> (x <= inject_Z (2 ^ k))%Q -> (to_double x <= inject_Z (2 ^ k))%Q.
Proof.
  intros Hk H. unfold to_double. rewrite <- (Qred_correct x) in H.
  assert (Hp : 0 < 2 ^ k) by (apply Z.pow_pos_nonneg; lia).
  destruct (Qred x) as [n d]. cbn [Qnum Qden]. destruct n as [|n|n].
  - change 0%Q with (inject_Z 0). rewrite <- Zle_Qle. lia.
  - apply to_double_pos_le; try lia. unfold Qle in H.
    cbn [Qnum Qden inject_Z] in H. lia.
  - pose proof (to_double_pos_nonneg (Z.pos n) (Z.pos d) ltac:(lia) ltac:(lia)) as H0.
    assert (H1 : (0 <= inject_Z (2 ^ k))%Q).
    { change 0%Q with (inject_Z 0). rewrite <- Zle_Qle. lia. }
    lra.
Qed.

End JSFacts.

(** ** Properties of the editor *)

Module EditorFacts.
Import JS Editor ListFacts JSFacts.

(** *** Frame lemmas: what the helpers leave alone *)

Ltac frame_by f :=
  intros; unfold f; repeat case_match; simplify_eq; simpl in *; try done.

Lemma blocks_applyBlockPosition b s : blocks (applyBlockPosition b s) = blocks s.
Proof. frame_by applyBlockPosition. Qed.

Lemma blocks_unmark_selected s : blocks (unmark_selected s) = blocks s.
Proof. frame_by unmark_selected. Qed.

Lemma blocks_selectBlock id s : blocks (selectBlock id s) = blocks s.
Proof. frame_by selectBlock; apply blocks_unmark_selected. Qed.

Lemma blocks_deselectBlock s : blocks (deselectBlock s) = blocks s.
Proof. unfold deselectBlock. simpl. apply blocks_unmark_selected. Qed.

Lemma blocks_startPointerInteraction e id m s :
  blocks (startPointerInteraction e id m s) = blocks s.
Proof. frame_by startPointerInteraction. Qed.

Lemma blocks_renderCanvas s : blocks (renderCanvas s) = blocks s.
Proof.
  unfold renderCanvas.
  apply (fold_left_preserves (fun s' => blocks s' = blocks s)); [|done].
  intros a i Ha. unfold createBlockElement, mount.
  repeat case_match; simplify_eq; simpl; done.
Qed.

Lemma blocks_setCanvasZoom v s : blocks (setCanvasZoom v s) = blocks s.
Proof. reflexivity. Qed.

Lemma blocks_adjustCanvasZoom d s : blocks (adjustCanvasZoom d s) = blocks s.
Proof. reflexivity. Qed.

(** The wheel and the fit leave the state as it is or end in
    [setCanvasZoom]. *)
Lemma handleZoomWheel_cases m c dy s :
  handleZoomWheel m c dy s = s
  \/ exists v, handleZoomWheel m c dy s = setCanvasZoom v s.
Proof.
  unfold handleZoomWheel, adjustCanvasZoom. repeat case_match; eauto.
Qed.

Lemma fitCanvasToPanel_cases c s :
  fitCanvasToPanel c s = s
  \/ exists v, fitCanvasToPanel c s = setCanvasZoom v s.
Proof. unfold fitCanvasToPanel. repeat case_match; eauto. Qed.

Lemma blocks_handleZoomWheel m c dy s : blocks (handleZoomWheel m c dy s) = blocks s.
Proof. by destruct (handleZoomWheel_cases m c dy s) as [->|[v ->]]. Qed.

Lemma blocks_fitCanvasToPanel c s : blocks (fitCanvasToPanel c s) = blocks s.
Proof. by destruct (fitCanvasToPanel_cases c s) as [->|[v ->]]. Qed.

Lemma blocks_onBlockPointerDown h e s : blocks (onBlockPointerDown h e s) = blocks s.
Proof.
  frame_by onBlockPointerDown;
    rewrite blocks_startPointerInteraction; apply blocks_selectBlock.
Qed.

(** *** Minimum size *)

Lemma min_size_normalizeBlock blk fresh :
  min_size (b_position (normalizeBlock blk fresh)).
Proof. unfold min_size, normalizeBlock, Math_max. simpl. lia. Qed.

(** [Math.round] is monotone, and fixes integers. *)
Lemma Math_round_le x y : (x <= y)%Q -> Math_round x <= Math_round y.
Proof.
  intros H. unfold Math_round. apply Qfloor_resp_le.
  apply Qplus_le_l. exact H.
Qed.

Lemma Math_round_Z z : Math_round (inject_Z z) = z.
Proof.
  unfold Math_round.
  assert (H1 : (inject_Z z <= inject_Z z + (1 # 2))%Q).
  { rewrite <- (Qplus_0_r (inject_Z z)) at 1. apply Qplus_le_r. discriminate. }
  assert (H2 : (inject_Z z + (1 # 2) < inject_Z (z + 1))%Q).
  { rewrite inject_Z_plus. apply Qplus_lt_r. reflexivity. }
  apply Qfloor_resp_le in H1. rewrite Qfloor_Z in H1.
  pose proof (Qfloor_le (inject_Z z + (1 # 2))) as H3.
  assert (H4 : (inject_Z (Qfloor (inject_Z z + (1 # 2))) < inject_Z (z + 1))%Q)
    by (eapply Qle_lt_trans; eauto).
  rewrite <- Zlt_Qlt in H4. lia.
Qed.

Lemma Qltb_false x y : Qltb x y = false -> (y <= x)%Q.
Proof.
  unfold Qltb. intros H. apply negb_false_iff in H. by apply Qle_bool_iff.
Qed.

Lemma Qltb_true x y : Qltb x y = true -> (x < y)%Q.
Proof.
  unfold Qltb. intros H. apply negb_true_iff in H.
  apply Qnot_le_lt. intros Hle. apply Qle_bool_iff in Hle. congruence.
Qed.

(** The value a numeric input with minimum [m] writes is at least [m]. *)
Lemma numeric_input_floor (m : Z) v :
  m <= Math_round (if Qltb (finite_or v 0) (inject_Z m) then inject_Z m else finite_or v 0).
Proof.
  destruct (Qltb (finite_or v 0) (inject_Z m)) eqn:E.
  - rewrite Math_round_Z. lia.
  - apply Qltb_false in E. apply Math_round_le in E.
    rewrite Math_round_Z in E. exact E.
Qed.

Lemma min_size_set_field f v p :
  min_size p ->
  (match f with f_width | f_height => 40 <= v | _ => True end) ->
  min_size (set_field f v p).
Proof. unfold min_size. destruct f; simpl; intuition lia. Qed.

Lemma geometry_bindNumericInput f v s :
  geometry_ok s -> geometry_ok (onNumericChange f v s).
Proof.
  intros Hok. unfold onNumericChange, bindNumericInput.
  destruct (selectedId s) as [key|] eqn:Hsel; [|done].
  destruct (getSelectedBlock s) as [b|] eqn:Hb; [|done].
  unfold geometry_ok, persistBlock. simpl. rewrite blocks_applyBlockPosition. simpl.
  apply map_Forall_insert_2; [|exact Hok].
  simpl. apply min_size_set_field.
  - unfold getSelectedBlock in Hb. rewrite Hsel in Hb.
    destruct (is_empty key); [done|]. exact (Hok _ _ Hb).
  - destruct f; simpl; try done; apply (numeric_input_floor 40).
Qed.

Lemma geometry_handlePointerMove e s :
  geometry_ok s -> geometry_ok (handlePointerMove e s).
Proof.
  intros Hok. unfold handlePointerMove.
  destruct (activePointer s) as [a|]; [|done].
  destruct (negb _); [done|].
  destruct (blocks s !! blockId a) as [b|] eqn:Hb; [|done].
  unfold geometry_ok. rewrite blocks_applyBlockPosition. simpl.
  apply map_Forall_insert_2; [|exact Hok].
  pose proof (Hok _ _ Hb) as [Hw Hh].
  destruct (a_mode a); unfold min_size, Math_max; simpl; lia.
Qed.

Lemma geometry_store_blocks bs fresh n s :
  geometry_ok s -> geometry_ok (store_blocks bs fresh n s).
Proof.
  revert n s. induction bs as [|blk bs IH]; intros n s Hok; simpl; [done|].
  apply IH. unfold geometry_ok. simpl.
  apply map_Forall_insert_2; [apply min_size_normalizeBlock | exact Hok].
Qed.

(** A successful create, step by step. *)
Lemma createBlock_response_success type r fresh s :
  createBlock_response type (Http true (Some r)) fresh s =
  let b := normalizeBlock r fresh in
  let s2 := set_blockOrder (blockOrder s ++ [b_id b])
              (set_blocks (<[b_id b := b]> (blocks s)) s) in
  let s3 := set_next_handle (S (next_handle s))
              (set_dom (<[next_handle s := Element (b_id b) false (b_position b)]> (dom s))
                 s2) in
  showToast (if is_image type then "Image block added" else "Text block added") false
    (selectBlock (b_id b) (mount (b_id b) (next_handle s) s3)).
Proof. reflexivity. Qed.

(** What a toast and the mounting of a new element leave alone. *)
Lemma showToast_frame message isError s :
  blocks (showToast message isError s) = blocks s
  /\ zoom (showToast message isError s) = zoom s
  /\ selectedId (showToast message isError s) = selectedId s.
Proof. done. Qed.

Lemma mounted_frame id h n d o m s :
  let s' := mount id h (set_next_handle n (set_dom d (set_blockOrder o (set_blocks m s)))) in
  blocks s' = m /\ zoom s' = zoom s /\ selectedId s' = selectedId s.
Proof. done. Qed.

(** The block map after the three asynchronous continuations. *)
Lemma blocks_createBlock_response type resp fresh s :
  blocks (createBlock_response type resp fresh s) =
  match resp with
  | Http true (Some r) =>
      <[b_id (normalizeBlock r fresh) := normalizeBlock r fresh]> (blocks s)
  | _ => blocks s
  end.
Proof.
  destruct resp as [|[|] [r|]]; try reflexivity.
  rewrite createBlock_response_success. cbv zeta.
  rewrite (proj1 (showToast_frame _ _ _)), blocks_selectBlock.
  apply mounted_frame.
Qed.

Lemma blocks_deleteBlock_response id resp s :
  blocks (deleteBlock_response id resp s) =
  match resp with
  | Http true _ => delete id (blocks s)
  | _ => blocks s
  end.
Proof.
  unfold deleteBlock_response.
  repeat case_match; simplify_eq; simpl; try done.
  all: by rewrite blocks_unmark_selected.
Qed.

Lemma blocks_loadLayout_response project resp fresh s :
  blocks (loadLayout_response project resp fresh s) =
  match resp with
  | Http true (Some l) =>
      blocks (store_blocks (default [] (l_blocks l)) fresh O
                (set_blocks ∅ s))
  | _ => blocks s
  end.
Proof.
  unfold loadLayout_response.
  repeat case_match; simplify_eq; simpl; try done.
  rewrite blocks_unmark_selected, blocks_renderCanvas.
  generalize (default [] (l_blocks l)) O.
  intros bs n.
  match goal with
  | |- blocks (store_blocks bs fresh n ?a) = blocks (store_blocks bs fresh n ?b) =>
      assert (Hab : blocks a = blocks b) by reflexivity;
      generalize dependent a; generalize dependent b
  end.
  revert n. induction bs as [|blk bs IH]; intros n b a Hab; simpl; [done|].
  apply IH. simpl. by rewrite Hab.
Qed.

Lemma geometry_step s ev : geometry_ok s -> geometry_ok (step s ev).
Proof.
  intros Hok. unfold geometry_ok in *.
  destruct ev; simpl; try exact Hok.
  - (* LoadLayoutResponse *)
    rewrite blocks_loadLayout_response. repeat case_match; try exact Hok.
    apply geometry_store_blocks. unfold geometry_ok. simpl. apply map_Forall_empty.
  - (* AddBlockResponse *)
    rewrite blocks_createBlock_response. repeat case_match; try exact Hok.
    apply map_Forall_insert_2; [apply min_size_normalizeBlock | exact Hok].
  - (* DeleteClick *)
    unfold onDeleteClick. case_match; exact Hok.
  - (* DeleteResponse *)
    rewrite blocks_deleteBlock_response. repeat case_match; try exact Hok.
    all: apply map_Forall_delete; exact Hok.
  - (* CanvasPointerDown *)
    unfold onCanvasPointerDown, deselectBlock. simpl.
    by rewrite blocks_unmark_selected.
  - (* BlockClick *)
    unfold onBlockClick. case_match; [|done]. by rewrite blocks_selectBlock.
  - (* BlockPointerDown *)
    by rewrite blocks_onBlockPointerDown.
  - by apply geometry_handlePointerMove.
  - (* PointerUp *)
    unfold endPointerInteraction. repeat case_match; exact Hok.
  - by apply geometry_bindNumericInput.
  - by rewrite blocks_handleZoomWheel.
  - by rewrite blocks_fitCanvasToPanel.
Qed.

Lemma geometry_run evs s : geometry_ok s -> geometry_ok (run evs s).
Proof.
  unfold run. apply fold_left_preserves. intros a b. apply geometry_step.
Qed.

(** *** The zoom factor *)

Lemma Qmax_spec a b : (a <= Qmax a b /\ b <= Qmax a b)%Q.
Proof.
  unfold Qmax. destruct (Qle_bool a b) eqn:E.
  - apply Qle_bool_iff in E. split; [exact E | apply Qle_refl].
  - split; [apply Qle_refl|]. apply Qlt_le_weak, Qnot_le_lt.
    intros H. apply Qle_bool_iff in H. congruence.
Qed.

Lemma Qmin_spec a b : (Qmin a b <= a /\ Qmin a b <= b)%Q.
Proof.
  unfold Qmin. destruct (Qle_bool a b) eqn:E.
  - apply Qle_bool_iff in E. split; [apply Qle_refl | exact E].
  - split; [|apply Qle_refl]. apply Qlt_le_weak, Qnot_le_lt.
    intros H. apply Qle_bool_iff in H. congruence.
Qed.

Lemma clampNumber_range v lo hi :
  (lo <= hi)%Q -> (lo <= clampNumber v lo hi <= hi)%Q.
Proof.
  intros Hle. unfold clampNumber. split.
  - unfold Qmin. destruct (Qle_bool hi (Qmax lo v)); [exact Hle|].
    apply (Qmax_spec lo v).
  - apply (Qmin_spec hi (Qmax lo v)).
Qed.

Lemma clampNumber_inside v lo hi :
  (lo <= v)%Q -> (v <= hi)%Q -> (clampNumber v lo hi == v)%Q.
Proof.
  intros H1 H2. unfold clampNumber, Qmin, Qmax.
  destruct (Qle_bool lo v) eqn:E1.
  - destruct (Qle_bool hi v) eqn:E2; [|reflexivity].
    apply Qle_bool_iff in E2. by apply Qle_antisym.
  - apply Qle_bool_iff in H1. congruence.
Qed.

Lemma toFixed2_hundredths x :
  (0 <= x)%Q -> toFixed2 x = (Qfloor (x * 100 + (1 # 2)) # 100).
Proof.
  intros H. unfold toFixed2. apply Qle_bool_iff in H. by rewrite H.
Qed.

Lemma toFixed2_range x :
  ((1 # 2) <= x <= 5)%Q ->
  exists k : Z, toFixed2 x = (k # 100) /\ 50 <= k <= 500.
Proof.
  intros [Hlo Hhi]. exists (Qfloor (x * 100 + (1 # 2))). split.
  - apply toFixed2_hundredths. lra.
  - split.
    + assert (H : ((101 # 2) <= x * 100 + (1 # 2))%Q) by lra.
      apply Qfloor_resp_le in H. exact H.
    + assert (H : (x * 100 + (1 # 2) <= (1001 # 2))%Q) by lra.
      apply Qfloor_resp_le in H. exact H.
Qed.

Lemma in_hundredths k : 50 <= k <= 500 -> In k hundredths.
Proof.
  intros H. unfold hundredths. apply in_map_iff.
  exists (Z.to_nat (k - 50)). split; [lia|]. apply in_seq. lia.
Qed.

Lemma all_hundredths_spec test k :
  all_hundredths test = true -> 50 <= k <= 500 -> test k = true.
Proof.
  intros H Hk. unfold all_hundredths in H. rewrite List.forallb_forall in H.
  by apply H, in_hundredths.
Qed.

(** The double of a number of hundredths between 0.5 and 5 lies
    between 0.5 and 5. *)
Lemma zoom_value_range k :
  50 <= k <= 500 -> ((1 # 2) <= to_double (k # 100) <= 5)%Q.
Proof.
  intros Hk.
  assert (H : all_hundredths
                (fun k => Qle_bool (1 # 2) (to_double (k # 100))
                          && Qle_bool (to_double (k # 100)) 5) = true)
    by (vm_compute; reflexivity).
  apply (all_hundredths_spec _ k) in H; [|exact Hk].
  cbv beta in H. apply andb_true_iff in H as [H1 H2].
  split; by apply Qle_bool_iff.
Qed.

Lemma zoom_ok_range s : zoom_ok s -> ((1 # 2) <= zoom s <= 5)%Q.
Proof. intros (k & -> & Hk). by apply zoom_value_range. Qed.

Lemma two_decimals_zoom x :
  ((1 # 2) <= x <= 5)%Q ->
  exists k : Z, two_decimals x = to_double (k # 100) /\ 50 <= k <= 500.
Proof.
  intros Hx. destruct (toFixed2_range x Hx) as (k & Hk & Hr).
  exists k. unfold two_decimals. by rewrite Hk.
Qed.

Lemma zoom_ok_setCanvasZoom v s : zoom_ok (setCanvasZoom v s).
Proof.
  unfold zoom_ok, setCanvasZoom. cbn [zoom set_zoom]. apply two_decimals_zoom.
  apply clampNumber_range. unfold ZOOM_min, ZOOM_max. lra.
Qed.

Lemma zoom_ok_nonzero s : zoom_ok s -> scale_of s = zoom s.
Proof.
  intros Hz. apply zoom_ok_range in Hz as [Hlo _].
  unfold scale_of, or_default.
  destruct (Qeq_bool (zoom s) 0) eqn:E; [|done].
  apply Qeq_bool_iff in E. rewrite E in Hlo. lra.
Qed.

Lemma zoom_unmark_selected s : zoom (unmark_selected s) = zoom s.
Proof. frame_by unmark_selected. Qed.

Lemma zoom_selectBlock id s : zoom (selectBlock id s) = zoom s.
Proof. frame_by selectBlock; apply zoom_unmark_selected. Qed.

Lemma zoom_renderCanvas s : zoom (renderCanvas s) = zoom s.
Proof.
  unfold renderCanvas.
  apply (fold_left_preserves (fun s' => zoom s' = zoom s)); [|done].
  intros a i Ha. unfold createBlockElement, mount.
  repeat case_match; simplify_eq; simpl; done.
Qed.

Lemma zoom_store_blocks bs fresh n s : zoom (store_blocks bs fresh n s) = zoom s.
Proof.
  revert n s. induction bs as [|blk bs IH]; intros n s; simpl; [done|].
  by rewrite IH.
Qed.

Lemma zoom_ok_step s ev : zoom_ok s -> zoom_ok (step s ev).
Proof.
  intros Hok.
  assert (Hsame : forall s', zoom s' = zoom s -> zoom_ok s').
  { intros s' E. unfold zoom_ok. by rewrite E. }
  destruct ev; simpl; try (apply Hsame; reflexivity);
    try apply zoom_ok_setCanvasZoom.
  - unfold loadLayout_response. repeat case_match; try (apply Hsame; reflexivity).
    apply Hsame. simpl.
    by rewrite zoom_unmark_selected, zoom_renderCanvas, zoom_store_blocks.
  - apply Hsame. destruct resp as [|[|] [r|]]; try reflexivity.
    rewrite createBlock_response_success. cbv zeta.
    rewrite (proj1 (proj2 (showToast_frame _ _ _))), zoom_selectBlock.
    apply mounted_frame.
  - apply Hsame. unfold onDeleteClick. by case_match.
  - unfold deleteBlock_response.
    repeat case_match; apply Hsame; simpl; try done.
    all: by rewrite zoom_unmark_selected.
  - apply Hsame. unfold onCanvasPointerDown, deselectBlock. simpl.
    apply zoom_unmark_selected.
  - apply Hsame. unfold onBlockClick. case_match; [|done]. apply zoom_selectBlock.
  - apply Hsame. unfold onBlockPointerDown, startPointerInteraction.
    repeat case_match; simpl; try done; apply zoom_selectBlock.
  - apply Hsame. unfold handlePointerMove, applyBlockPosition.
    repeat case_match; simpl; done.
  - apply Hsame. unfold endPointerInteraction. repeat case_match; simpl; done.
  - apply Hsame. unfold onNumericChange, bindNumericInput, applyBlockPosition.
    repeat case_match; simpl; done.
  - destruct (handleZoomWheel_cases metaKey ctrlKey deltaY s) as [->|[v ->]];
      [exact Hok | apply zoom_ok_setCanvasZoom].
  - destruct (fitCanvasToPanel_cases container s) as [->|[v ->]];
      [exact Hok | apply zoom_ok_setCanvasZoom].
Qed.

Lemma reachable_zoom_ok s : reachable s -> zoom_ok s.
Proof.
  intros [evs ->]. unfold run.
  apply fold_left_preserves; [intros a b; apply zoom_ok_step|].
  apply zoom_ok_setCanvasZoom.
Qed.

Lemma reachable_geometry_ok s : reachable s -> geometry_ok s.
Proof.
  intros [evs ->]. apply geometry_run. unfold geometry_ok. simpl.
  apply map_Forall_empty.
Qed.

Lemma reachable_step s ev : reachable s -> reachable (step s ev).
Proof.
  intros [evs ->]. exists (evs ++ [ev]). unfold run.
  by rewrite fold_left_app.
Qed.

(** *** Claims on geometry and pointer interaction *)



Lemma activePointer_unmark_selected s :
  activePointer (unmark_selected s) = activePointer s.
Proof. frame_by unmark_selected. Qed.

Lemma activePointer_selectBlock id s :
  activePointer (selectBlock id s) = activePointer s.
Proof. frame_by selectBlock; apply activePointer_unmark_selected. Qed.

(** C5.  [state.activePointer] holds at most one interaction.  While it
    holds one, a pointer-down on any block element (body or resize
    handle) or on the canvas leaves it as it is and leaves the block
    map, hence every position, unchanged. *)
Theorem second_pointer_down_ignored (s : state) (a : active_pointer)
    (h : handle) (e : pointer_event) :
  activePointer s = Some a ->
  (activePointer (onBlockPointerDown h e s) = Some a
   /\ blocks (onBlockPointerDown h e s) = blocks s)
  /\ (activePointer (onCanvasPointerDown s) = Some a
      /\ blocks (onCanvasPointerDown s) = blocks s).
Proof.
  intros Ha. repeat split.
  - unfold onBlockPointerDown, startPointerInteraction.
    repeat case_match; simplify_eq; try done.
    all: rewrite activePointer_selectBlock in *; congruence.
  - apply blocks_onBlockPointerDown.
  - unfold onCanvasPointerDown, deselectBlock. simpl.
    by rewrite activePointer_unmark_selected.
  - apply blocks_deselectBlock.
Qed.

Lemma second_pointer_down_ignored_witness :
  let a := ActivePointer "b1" 1 drag 10 10 100 100 200 150 in
  let e := PointerEvent 2 40 40 false 0 1 true in
  (activePointer (onBlockPointerDown O e sample_dragging) = Some a
   /\ blocks (onBlockPointerDown O e sample_dragging) = blocks sample_dragging)
  /\ (activePointer (onCanvasPointerDown sample_dragging) = Some a
      /\ blocks (onCanvasPointerDown sample_dragging) = blocks sample_dragging).
Proof.
  intros a e. apply (second_pointer_down_ignored sample_dragging a O e).
  vm_compute. reflexivity.
Defined.

(** C2.  During an interaction, a move of the pointer that started it
    sets the stored position of the block.  With [dx] and [dy] the
    differences between the pointer and its start and [z] the zoom, a
    drag sets left and top to the origin plus [dx / z] and [dy / z],
    rounded to integers; a resize sets width and height in the same
    way, with a floor of 40; the other two fields keep their values.
    Differences, quotients and sums are those of binary64 arithmetic,
    as the code computes them. *)
Theorem pointer_move_sets_position (s : state) (a : active_pointer)
    (e : pointer_event) (b : block) :
  reachable s ->
  activePointer s = Some a ->
  pointerId e = a_pointerId a ->
  blocks s !! blockId a = Some b ->
  pixels_ok a e ->
  let z := zoom s in
  let dx := js_sub (clientX e) (startX a) in
  let dy := js_sub (clientY e) (startY a) in
  b_position <$> blocks (handlePointerMove e s) !! blockId a =
  Some
    match a_mode a with
    | drag =>
        Position (Math_round (js_add (inject_Z (originLeft a)) (js_div dx z)))
                 (Math_round (js_add (inject_Z (originTop a)) (js_div dy z)))
                 (p_width (b_position b)) (p_height (b_position b))
    | resize =>
        Position (p_left (b_position b)) (p_top (b_position b))
                 (Z.max 40 (Math_round (js_add (inject_Z (originWidth a)) (js_div dx z))))
                 (Z.max 40 (Math_round (js_add (inject_Z (originHeight a)) (js_div dy z))))
    end.
Proof.
  intros Hr Ha Hp Hb _ z dx dy. unfold handlePointerMove.
  rewrite Ha, Hp, Z.eqb_refl, Hb. cbn [negb].
  rewrite blocks_applyBlockPosition. cbn [blocks set_blocks].
  rewrite lookup_insert_eq. cbn [fmap option_fmap option_map set_position b_position].
  rewrite (zoom_ok_nonzero s (reachable_zoom_ok s Hr)).
  by destruct (a_mode a).
Qed.

Lemma pointer_move_sets_position_witness :
  b_position <$>
    blocks (handlePointerMove (sample_pointer 60 (-10) false) sample_dragging) !! "b1"
  = Some (Position 150 80 200 150).
Proof.
  apply (pointer_move_sets_position sample_dragging
           (ActivePointer "b1" 1 drag 10 10 100 100 200 150)
           (sample_pointer 60 (-10) false)
           (sample_block (Position 100 100 200 150))).
  - eexists. reflexivity.
  - vm_compute. reflexivity.
  - reflexivity.
  - vm_compute. reflexivity.
  - unfold pixels_ok, pixel_value, is_double. vm_compute.
    repeat split; discriminate.
Defined.

(** Binary64 arithmetic shows: at zoom 0.56 a move by 175 gives the
    quotient 312.49999999999994 and the left edge 412, where the exact
    quotient 312.5 would give 413. *)
Example drag_at_zoom_056 :
  let s := run (sample_events
                  ++ [ZoomInput (Fin (to_double (56 # 100)));
                      BlockPointerDown O (sample_pointer 10 10 false);
                      PointerMove (sample_pointer 185 10 false)])
             booted in
  zoom s = to_double (56 # 100)
  /\ b_position <$> blocks s !! "b1" = Some (Position 412 100 200 150)
  /\ Math_round (100 + 175 / (56 # 100)) = 413.
Proof. vm_compute. repeat split; reflexivity. Qed.

(** A resize far below the minimum stops at 40 by 40. *)
Example resize_is_floored_at_40 :
  b_position <$>
    blocks (handlePointerMove (sample_pointer (-5000) (-5000) true) sample_resizing)
      !! "b1"
  = Some (Position 100 100 40 40).
Proof. vm_compute. reflexivity. Qed.

(** The block at (100, 100, 200, 150), dragged by (50, -20) at zoom 1:
    the store holds (150, 80, 200, 150), and the one update sent at
    pointer-up carries the same values. *)
Example drag_then_release_persists_once :
  let e := sample_pointer 60 (-10) false in
  let s := run [PointerMove (sample_pointer 30 0 false); PointerMove e; PointerUp e]
             sample_dragging in
  b_position <$> blocks s !! "b1" = Some (Position 150 80 200 150)
  /\ effects s = effects sample_dragging
                 ++ [PostBlockUpdate "demo" "b1" (UpdPosition (Position 150 80 200 150))]
  /\ activePointer s = None.
Proof. vm_compute. repeat split; reflexivity. Qed.

(** [persistBlock] has no timer: every call sends its request at once. *)
Lemma persistBlock_sends_at_once id u s :
  effects (persistBlock id u s) = effects s ++ [PostBlockUpdate (project s) id u].
Proof. reflexivity. Qed.

(** *** Numeric edits of the inspector *)

Lemma selectedId_applyBlockPosition b s :
  selectedId (applyBlockPosition b s) = selectedId s.
Proof. frame_by applyBlockPosition. Qed.

Lemma effects_applyBlockPosition b s :
  effects (applyBlockPosition b s) = effects s.
Proof. frame_by applyBlockPosition. Qed.

Lemma project_applyBlockPosition b s :
  project (applyBlockPosition b s) = project s.
Proof. frame_by applyBlockPosition. Qed.

(** A numeric edit of the selected block sends its update at once. *)
Lemma numeric_change_persists f v s b :
  getSelectedBlock s = Some b ->
  exists b',
    getSelectedBlock (onNumericChange f v s) = Some b'
    /\ project (onNumericChange f v s) = project s
    /\ effects (onNumericChange f v s) =
       effects s ++ [PostBlockUpdate (project s) (b_id b') (UpdPosition (b_position b'))].
Proof.
  intros Hsel. unfold onNumericChange, bindNumericInput. rewrite Hsel.
  unfold getSelectedBlock in Hsel.
  destruct (selectedId s) as [key|] eqn:Hkey; [|discriminate].
  destruct (is_empty key) eqn:Hempty; [discriminate|].
  eexists. unfold persistBlock, emit. cbn [project effects selectedId blocks].
  rewrite project_applyBlockPosition, effects_applyBlockPosition.
  cbn [project effects set_blocks]. split; [|split; reflexivity].
  unfold getSelectedBlock. cbn [selectedId blocks].
  rewrite selectedId_applyBlockPosition, blocks_applyBlockPosition.
  cbn [selectedId blocks set_blocks]. rewrite Hkey, Hempty.
  apply lookup_insert_eq.
Qed.

(** A series of them sends as many updates, the last one carrying the
    position the store then holds. *)
Lemma numeric_changes_persist cs : forall s b,
  getSelectedBlock s = Some b ->
  cs <> [] ->
  let s' := run (numeric_changes cs) s in
  exists sent b',
    effects s' = effects s ++ sent
    /\ length sent = length cs
    /\ forallb is_update sent = true
    /\ getSelectedBlock s' = Some b'
    /\ last sent =
       Some (PostBlockUpdate (project s) (b_id b') (UpdPosition (b_position b'))).
Proof.
  induction cs as [|[f v] cs IH]; intros s b Hsel Hne; [done|].
  destruct (numeric_change_persists f v s b Hsel) as (b1 & Hsel1 & Hp1 & He1).
  cbn [numeric_changes map run fold_left step fst snd].
  destruct cs as [|c cs'].
  - exists [PostBlockUpdate (project s) (b_id b1) (UpdPosition (b_position b1))], b1.
    cbn [map fold_left]. repeat split; try done.
  - destruct (IH (onNumericChange f v s) b1 Hsel1 ltac:(done))
      as (sent & b' & H1 & H2 & H3 & H4 & H5).
    exists (PostBlockUpdate (project s) (b_id b1) (UpdPosition (b_position b1)) :: sent), b'.
    unfold run, numeric_changes in H1, H4. rewrite H1, He1, <- app_assoc.
    split; [done|]. split; [cbn [length]; by rewrite H2|].
    split; [cbn [forallb is_update]; exact H3|]. split; [exact H4|].
    rewrite Hp1 in H5. destruct sent as [|u sent]; [discriminate H2|]. exact H5.
Qed.

(** C4, as the specification states it, fails for the editor: five
    edits of the left field of the selected block, one after the other,
    send five update requests, not one. *)
Lemma five_edits_send_five_updates :
  effects (run (numeric_changes sample_changes) sample_selected) =
  effects sample_selected
  ++ [PostBlockUpdate "demo" "b1" (UpdPosition (Position 110 100 200 150));
      PostBlockUpdate "demo" "b1" (UpdPosition (Position 120 100 200 150));
      PostBlockUpdate "demo" "b1" (UpdPosition (Position 130 100 200 150));
      PostBlockUpdate "demo" "b1" (UpdPosition (Position 140 100 200 150));
      PostBlockUpdate "demo" "b1" (UpdPosition (Position 150 100 200 150))].
Proof. vm_compute. reflexivity. Qed.

(** *** Claims on creation, zoom and selection *)

(** C6.  When the create request fails -- [fetch] rejects or the
    response is not ok -- [createBlock] keeps no local change: block
    map, block order, element map, canvas children, elements and
    selection are what they were before the call. *)
Theorem failed_create_keeps_no_mutation (type : string) (rx ry : Z)
    (resp : response raw_block) (fresh : string) (s : state) :
  failed resp = true ->
  let s' := createBlock type rx ry resp fresh s in
  blocks s' = blocks s
  /\ blockOrder s' = blockOrder s
  /\ blockElements s' = blockElements s
  /\ canvas s' = canvas s
  /\ dom s' = dom s
  /\ selectedId s' = selectedId s.
Proof.
  intros Hf. unfold createBlock, createBlock_response, createBlock_request.
  destruct resp as [|[|] body]; simpl in Hf; try discriminate; simpl; done.
Qed.

Lemma failed_create_keeps_no_mutation_witness :
  let s' := createBlock "text" 7 9 (Http false None) "block-1" sample_loaded in
  blocks s' = blocks sample_loaded
  /\ blockOrder s' = blockOrder sample_loaded
  /\ blockElements s' = blockElements sample_loaded
  /\ canvas s' = canvas sample_loaded
  /\ dom s' = dom sample_loaded
  /\ selectedId s' = selectedId sample_loaded.
Proof.
  apply (failed_create_keeps_no_mutation "text" 7 9 (Http false None) "block-1"
           sample_loaded).
  reflexivity.
Defined.

Lemma dom_handleZoomWheel m c dy s : dom (handleZoomWheel m c dy s) = dom s.
Proof. by destruct (handleZoomWheel_cases m c dy s) as [->|[v ->]]. Qed.

Lemma dom_fitCanvasToPanel c s : dom (fitCanvasToPanel c s) = dom s.
Proof. by destruct (fitCanvasToPanel_cases c s) as [->|[v ->]]. Qed.

(** C8.  Setting the zoom, stepping it, the zoom wheel and the fit to
    the panel leave the block map as it is -- every block keeps its
    left, top, width and height -- and leave the inline geometry of
    every element as it is. *)
Theorem zoom_keeps_block_geometry (s : state) :
  (forall value, blocks (setCanvasZoom value s) = blocks s
                 /\ dom (setCanvasZoom value s) = dom s)
  /\ (forall delta, blocks (adjustCanvasZoom delta s) = blocks s
                    /\ dom (adjustCanvasZoom delta s) = dom s)
  /\ (forall metaKey ctrlKey deltaY,
        blocks (handleZoomWheel metaKey ctrlKey deltaY s) = blocks s
        /\ dom (handleZoomWheel metaKey ctrlKey deltaY s) = dom s)
  /\ (forall container,
        blocks (fitCanvasToPanel container s) = blocks s
        /\ dom (fitCanvasToPanel container s) = dom s).
Proof.
  repeat split.
  - apply blocks_handleZoomWheel.
  - apply dom_handleZoomWheel.
  - apply blocks_fitCanvasToPanel.
  - apply dom_fitCanvasToPanel.
Qed.

Lemma selectedId_unmark_selected s : selectedId (unmark_selected s) = selectedId s.
Proof. frame_by unmark_selected. Qed.

Lemma selection_ok_selectBlock id s : selection_ok s -> selection_ok (selectBlock id s).
Proof.
  intros Hok i. unfold selectBlock.
  repeat case_match; simpl; intros Hi; simplify_eq.
  - by apply Hok.
  - rewrite blocks_unmark_selected in *. eauto.
Qed.

Lemma selection_ok_deselectBlock s : selection_ok (deselectBlock s).
Proof. intros i. unfold deselectBlock. simpl. discriminate. Qed.

Lemma selection_ok_deleteBlock_response id resp s :
  selection_ok s -> selection_ok (deleteBlock_response id resp s).
Proof.
  intros Hok i. unfold deleteBlock_response.
  repeat case_match; simpl; try discriminate; apply Hok.
Qed.

(** A step that keeps the selection and loses no key keeps consistency. *)
Lemma selection_ok_mono s s' :
  selectedId s' = selectedId s ->
  (forall i, is_Some (blocks s !! i) -> is_Some (blocks s' !! i)) ->
  selection_ok s -> selection_ok s'.
Proof. intros Hs Hb Hok i Hi. apply Hb, Hok. congruence. Qed.

Lemma selectedId_store_blocks bs fresh n s :
  selectedId (store_blocks bs fresh n s) = selectedId s.
Proof.
  revert n s. induction bs as [|blk bs IH]; intros n s; simpl; [done|].
  by rewrite IH.
Qed.

Lemma selection_ok_step s ev : selection_ok s -> selection_ok (step s ev).
Proof.
  intros Hok. destruct ev; simpl; try exact Hok.
  - (* LoadLayoutResponse *)
    unfold loadLayout_response. repeat case_match; try exact Hok.
    intros i. simpl. discriminate.
  - (* AddBlockResponse *)
    destruct resp as [|[|] [r|]]; try exact Hok.
    rewrite createBlock_response_success. cbv zeta.
    eapply selection_ok_mono;
      [apply showToast_frame | intros i; by rewrite (proj1 (showToast_frame _ _ _)) |].
    apply selection_ok_selectBlock.
    eapply selection_ok_mono; [apply mounted_frame| |exact Hok].
    intros i Hi. rewrite (proj1 (mounted_frame _ _ _ _ _ _ _)).
    rewrite lookup_insert. case_decide; eauto.
  - unfold onDeleteClick. by case_match.
  - by apply selection_ok_deleteBlock_response.
  - apply selection_ok_deselectBlock.
  - unfold onBlockClick. case_match; [|done]. by apply selection_ok_selectBlock.
  - (* BlockPointerDown *)
    unfold onBlockPointerDown. repeat case_match; try exact Hok.
    all: eapply selection_ok_mono;
      [| |apply (selection_ok_selectBlock (dataset_id e0) s Hok)].
    all: try (intros i; by rewrite blocks_startPointerInteraction).
    all: unfold startPointerInteraction; repeat case_match; done.
  - (* PointerMove *)
    eapply selection_ok_mono; [| |exact Hok].
    + unfold handlePointerMove, applyBlockPosition. repeat case_match; done.
    + intros i Hi. unfold handlePointerMove.
      repeat case_match; try done.
      all: rewrite blocks_applyBlockPosition; simpl.
      all: rewrite lookup_insert; case_decide; eauto.
  - (* PointerUp *)
    unfold endPointerInteraction. repeat case_match; exact Hok.
  - (* NumericChange *)
    eapply selection_ok_mono; [| |exact Hok].
    + unfold onNumericChange, bindNumericInput, applyBlockPosition.
      repeat case_match; done.
    + intros i Hi. unfold onNumericChange, bindNumericInput.
      repeat case_match; try done.
      all: simpl; rewrite blocks_applyBlockPosition; simpl.
      all: rewrite lookup_insert; case_decide; eauto.
  - unfold handleZoomWheel. repeat case_match; exact Hok.
  - unfold fitCanvasToPanel. repeat case_match; exact Hok.
Qed.

Lemma reachable_selection_ok s : reachable s -> selection_ok s.
Proof.
  intros [evs ->]. unfold run.
  apply fold_left_preserves; [intros a b; apply selection_ok_step|].
  intros i. simpl. discriminate.
Qed.

(** C9.  Selection and store stay consistent: if [selectedId] is null
    or a key of the block map -- as it is in every reachable state --
    then it is so again after selecting any id, after deselecting and
    after a delete, whatever the server answers; and selecting an id
    that is not in the block map leaves the selection null. *)
Theorem selection_consistent_with_store (s : state) (id victim : string)
    (resp : response unit) :
  selection_ok s ->
  selection_ok (selectBlock id s)
  /\ selection_ok (deselectBlock s)
  /\ selection_ok (deleteBlock victim resp s)
  /\ (blocks s !! id = None -> selectedId (selectBlock id s) = None).
Proof.
  intros Hok. repeat split.
  - by apply selection_ok_selectBlock.
  - apply selection_ok_deselectBlock.
  - unfold deleteBlock. apply selection_ok_deleteBlock_response. exact Hok.
  - intros Hnone. unfold selectBlock.
    destruct (decide (selectedId s = Some id)) as [E|E].
    + apply Hok in E. rewrite Hnone in E. by destruct E.
    + rewrite blocks_unmark_selected, Hnone. by case_match.
Qed.

Lemma selection_consistent_with_store_witness :
  selection_ok (selectBlock "ghost" sample_dragging)
  /\ selection_ok (deselectBlock sample_dragging)
  /\ selection_ok (deleteBlock "b1" (Http true None) sample_dragging)
  /\ (blocks sample_dragging !! "ghost" = None ->
      selectedId (selectBlock "ghost" sample_dragging) = None).
Proof.
  apply (selection_consistent_with_store sample_dragging "ghost" "b1"
           (Http true None)).
  intros i Hi. vm_compute in Hi. injection Hi as <-.
  vm_compute. eexists. reflexivity.
Defined.

(** *** Claims on loading and on the fit to the panel *)

(** C3, as the code has it.  A failed load is caught, in both clients.
    The editor of [pages.js] logs the error, shows a toast and changes
    nothing else: project, layout, block map, order, elements, canvas
    and selection are as before, so the blocks loaded earlier stay in
    the store and on the canvas.  The legacy client of [app.js] applies
    its default layout, which has no block, and so empties its canvas. *)
Theorem failed_load_is_caught (project : string) (resp : response layout)
    (fresh : nat -> string) (s : state)
    (legacy_resp : response LegacyApp.layout)
    (legacy_canvas : list LegacyApp.element) :
  (failed resp = true ->
   let s' := loadLayout project resp fresh s in
   Editor.project s' = Editor.project s
   /\ layout_of s' = layout_of s
   /\ blocks s' = blocks s
   /\ blockOrder s' = blockOrder s
   /\ blockElements s' = blockElements s
   /\ canvas s' = canvas s
   /\ dom s' = dom s
   /\ selectedId s' = selectedId s
   /\ effects s' =
      effects s ++ [GetLayout project; ConsoleError;
                    Toast "Unable to load layout" true])
  /\ (failed legacy_resp = true ->
      LegacyApp.loadLayout legacy_resp legacy_canvas = []).
Proof.
  split.
  - intros Hf. unfold loadLayout, loadLayout_response, loadLayout_request.
    destruct resp as [|[|] body]; simpl in Hf; try discriminate; simpl.
    all: rewrite <- !app_assoc; done.
  - intros Hf.
    destruct legacy_resp as [|[|] body]; simpl in Hf; try discriminate; done.
Qed.

Lemma failed_load_is_caught_witness :
  blocks (loadLayout "other" (Http false None) (fun _ => "block-0") sample_loaded)
  = blocks sample_loaded
  /\ LegacyApp.loadLayout NetworkError
       [LegacyApp.block_element (LegacyApp.BlockData "b1" "text" "Hi" 1 2 3 4)]
     = [].
Proof.
  pose proof (failed_load_is_caught "other" (Http false None) (fun _ => "block-0")
                sample_loaded NetworkError
                [LegacyApp.block_element (LegacyApp.BlockData "b1" "text" "Hi" 1 2 3 4)])
    as [H1 H2].
  split.
  - apply H1. reflexivity.
  - apply H2. reflexivity.
Defined.

(** C3, as the specification states it, fails in the editor: after a
    load that the server answers with a non-success status, the block
    of the project loaded before is still in the store and its element
    is still on the canvas. *)
Lemma failed_load_keeps_previous_blocks :
  let s' := loadLayout "other" (Http false None) (fun _ => "block-0") sample_loaded in
  failed (Http false (@None layout)) = true
  /\ blocks s' !! "b1" = Some (sample_block (Position 100 100 200 150))
  /\ canvas s' = [O]
  /\ Editor.project s' = "demo"
  /\ ~ (blocks s' = ∅ /\ canvas s' = []).
Proof.
  repeat split; try (vm_compute; reflexivity).
  intros [_ H]. vm_compute in H. discriminate H.
Qed.

Lemma toFixed2_comp x y : (x == y)%Q -> toFixed2 x = toFixed2 y.
Proof.
  intros E. unfold toFixed2. rewrite E.
  destruct (Qle_bool 0 y).
  - f_equal. apply Qfloor_comp. by rewrite E.
  - f_equal. f_equal. apply Qfloor_comp. by rewrite E.
Qed.

Lemma or_default_nonneg x : (0 <= x)%Q -> (0 <= or_default x 0)%Q.
Proof. intros H. unfold or_default. destruct (Qeq_bool x 0); [apply Qle_refl | exact H]. Qed.

Lemma is_finite_below x : (0 <= x <= inject_Z (2 ^ 31))%Q -> is_finite x = true.
Proof.
  intros [H0 H1]. unfold is_finite. apply negb_true_iff.
  destruct (Qle_bool _ (Qabs x)) eqn:E; [|done].
  apply Qle_bool_iff in E. rewrite Qabs_pos in E by exact H0.
  assert (H2 : (inject_Z (2 ^ 31) < inject_Z (2 ^ 1024 - 2 ^ 970))%Q).
  { rewrite <- Zlt_Qlt. vm_compute. reflexivity. }
  lra.
Qed.

Lemma is_finite_bound x : is_finite x = true -> (x < inject_Z (2 ^ 1024))%Q.
Proof.
  unfold is_finite. intros H. apply negb_true_iff in H.
  assert (H1 : (Qabs x < inject_Z (2 ^ 1024 - 2 ^ 970))%Q).
  { apply Qnot_le_lt. intros H1. apply Qle_bool_iff in H1. congruence. }
  assert (H2 : (inject_Z (2 ^ 1024 - 2 ^ 970) < inject_Z (2 ^ 1024))%Q).
  { rewrite <- Zlt_Qlt. vm_compute. reflexivity. }
  pose proof (Qle_Qabs x). lra.
Qed.

(** The available width of a panel with paddings that are not
    negative: at least 120, and finite. *)
Lemma availableWidth_range c :
  (0 <= paddingLeft c)%Q -> (0 <= paddingRight c)%Q -> clientWidth c < 2 ^ 31 ->
  (120 <= availableWidth c)%Q /\ is_finite (availableWidth c) = true.
Proof.
  intros Hl Hr Hc.
  assert (Hlo : (120 <= availableWidth c)%Q) by (unfold availableWidth; apply Qmax_spec).
  split; [exact Hlo|]. apply is_finite_below. split; [lra|].
  unfold availableWidth.
  set (p := js_add (or_default (paddingLeft c) 0) (or_default (paddingRight c) 0)).
  assert (Hp : (0 <= p)%Q).
  { unfold p, js_add. apply to_double_nonneg.
    pose proof (or_default_nonneg _ Hl). pose proof (or_default_nonneg _ Hr). lra. }
  assert (Hx : (js_sub (inject_Z (clientWidth c)) p <= inject_Z (2 ^ 31))%Q).
  { unfold js_sub. apply to_double_le_pow2; [lia|].
    assert (inject_Z (clientWidth c) <= inject_Z (2 ^ 31))%Q by (rewrite <- Zle_Qle; lia).
    lra. }
  unfold Qmax. destruct (Qle_bool _ 120); [|exact Hx].
  change 120%Q with (inject_Z 120). rewrite <- Zle_Qle. vm_compute. discriminate.
Qed.

(** The quotient of an available width by a positive finite page width
    is positive. *)
Lemma fit_ratio_positive a w :
  (120 <= a)%Q -> (0 < w)%Q -> is_finite w = true -> (0 < js_div a w)%Q.
Proof.
  intros Ha Hw Hf. unfold js_div. apply to_double_positive.
  apply is_finite_bound in Hf.
  assert (Hk : (inject_Z (2 ^ 1024) <= 120 * inject_Z (2 ^ 1074))%Q).
  { change 120%Q with (inject_Z 120). rewrite <- inject_Z_mult, <- Zle_Qle.
    vm_compute. discriminate. }
  set (K := inject_Z (2 ^ 1074)) in *. set (W := inject_Z (2 ^ 1024)) in *.
  assert (HK : (0 <= K)%Q) by lra.
  assert (E : (a / w * K == a * K / w)%Q) by (field; lra).
  rewrite E. apply Qle_shift_div_l; [exact Hw|].
  assert (H1 : (120 * K <= a * K)%Q) by (apply Qmult_le_compat_r; assumption).
  lra.
Qed.

Lemma fit_target s l dims c :
  layout_of s = Some l -> l_dimensions l = Some dims ->
  (0 < d_width dims)%Q -> is_finite (d_width dims) = true ->
  ~ (d_height dims == 0)%Q ->
  (0 <= paddingLeft c)%Q -> (0 <= paddingRight c)%Q -> clientWidth c < 2 ^ 31 ->
  let ratio := js_div (availableWidth c) (d_width dims) in
  let target := clampNumber ratio ZOOM_min ZOOM_max in
  zoom (fitCanvasToPanel (Some c) s) =
  if negb (is_finite ratio)
     || Qltb (Qabs (js_sub target (zoom s))) (to_double (1 # 100))
  then zoom s else two_decimals target.
Proof.
  intros Hl Hd Hw Hf Hh Hpl Hpr Hc ratio target. unfold fitCanvasToPanel.
  rewrite Hl. change (Some l ≫= l_dimensions) with (l_dimensions l). rewrite Hd.
  assert (E1 : nonzero (d_width dims) = true).
  { unfold nonzero. apply negb_true_iff. destruct (Qeq_bool _ 0) eqn:E; [|done].
    apply Qeq_bool_iff in E. rewrite E in Hw. by apply Qlt_irrefl in Hw. }
  assert (E2 : nonzero (d_height dims) = true).
  { unfold nonzero. apply negb_true_iff. destruct (Qeq_bool _ 0) eqn:E; [|done].
    apply Qeq_bool_iff in E. contradiction. }
  rewrite E1, E2. cbn [negb orb].
  destruct (availableWidth_range c Hpl Hpr Hc) as [Ha Hfa].
  assert (E3 : Qle_bool (availableWidth c) 0 = false).
  { destruct (Qle_bool _ 0) eqn:E; [|done]. apply Qle_bool_iff in E. lra. }
  rewrite Hfa, E3. cbn [negb orb].
  pose proof (fit_ratio_positive _ _ Ha Hw Hf) as Hpos. fold ratio in Hpos.
  assert (E4 : Qle_bool ratio 0 = false).
  { destruct (Qle_bool ratio 0) eqn:E; [|reflexivity].
    apply Qle_bool_iff in E. lra. }
  fold ratio. rewrite E4, orb_false_r. fold target.
  destruct (is_finite ratio); cbn [negb orb]; [|done].
  destruct (Qltb (Qabs (js_sub target (zoom s))) (to_double (1 # 100))); [done|].
  unfold setCanvasZoom. cbn [zoom set_zoom finite_or]. unfold two_decimals.
  f_equal. apply toFixed2_comp.
  apply clampNumber_inside; apply clampNumber_range; unfold ZOOM_min, ZOOM_max; lra.
Qed.

(** Among the zoom factors only 0.5 itself is within 0.01 of 0.5. *)
Lemma hundredths_near_half k :
  50 <= k <= 500 ->
  Qltb (Qabs (js_sub (1 # 2) (to_double (k # 100)))) (to_double (1 # 100)) = true ->
  (to_double (k # 100) == 1 # 2)%Q.
Proof.
  intros Hk H.
  assert (Hall : all_hundredths
                   (fun k =>
                      if Qltb (Qabs (js_sub (1 # 2) (to_double (k # 100))))
                           (to_double (1 # 100))
                      then Qeq_bool (to_double (k # 100)) (1 # 2) else true) = true)
    by (vm_compute; reflexivity).
  apply (all_hundredths_spec _ k) in Hall; [|exact Hk].
  cbv beta in Hall. rewrite H in Hall. by apply Qeq_bool_iff.
Qed.

(** The doubles of 0.1 and 0.01, and a step from 0.85: the sum
    0.95 divided by 0.1 is 9.499999999999998, so the zoom becomes 0.9. *)
Example zoom_in_from_085 :
  ZOOM_step = (3602879701896397 # 36028797018963968)%Q
  /\ to_double (1 # 100) = (5764607523034235 # 576460752303423488)%Q
  /\ zoom (run [ZoomInput (Fin (to_double (85 # 100))); ZoomIn] booted)
     = to_double (9 # 10).
Proof. vm_compute. repeat split; reflexivity. Qed.

(** A fit from 2.01 to the target 2 is skipped: in doubles the
    difference is below 0.01. *)
Example fit_from_201_is_skipped :
  let s := run (sample_events ++ [ZoomInput (Fin (to_double (201 # 100)))]) booted in
  zoom s = to_double (201 # 100)
  /\ zoom (fitCanvasToPanel (Some (Panel 1588 0 0)) s) = zoom s.
Proof. vm_compute. repeat split; reflexivity. Qed.




End EditorFacts.

(** ** Properties of the debounced save *)

Module LegacyBlocksFacts.
Import LegacyBlocks ListFacts.

Lemma armed_timers_ok c t : armed c t -> timers_ok c.
Proof.
  intros (i & Ht & Hs & _). unfold timers_ok. rewrite Ht, Hs.
  by repeat constructor.
Qed.

Lemma scheduleSave_armed s :
  timers_ok (clk s) ->
  armed (clk (scheduleSave s)) (now (clk s))
  /\ doc (scheduleSave s) = doc s
  /\ requests (scheduleSave s) = requests s.
Proof.
  intros Hok. unfold scheduleSave, setTimeout, clearTimeout, timers_ok in *.
  destruct (saveTimer (clk s)) as [i|] eqn:Hs; simpl.
  - rewrite filter_none.
    + repeat split. eexists. simpl. eauto.
    + eapply Forall_impl; [exact Hok|]. simpl. intros tm Htm.
      injection Htm as ->. by rewrite Nat.eqb_refl.
  - destruct (timers (clk s)) as [|tm l] eqn:Ht.
    + repeat split. eexists. simpl. eauto.
    + inversion Hok; subst. discriminate.
Qed.

(** [saveLayout] sends the serialized page, or nothing when the page
    cannot be serialized; it changes neither page nor clock. *)
Lemma saveLayout_requests s :
  requests (saveLayout s) =
  requests s
  ++ match serializeLayout (doc s) with
     | Some layout => [SaveRequest (now (clk s)) layout (project (doc s))]
     | None => []
     end.
Proof.
  unfold saveLayout. destruct (serializeLayout (doc s)); [done|].
  by rewrite app_nil_r.
Qed.

Lemma saveLayout_frame s : doc (saveLayout s) = doc s /\ clk (saveLayout s) = clk s.
Proof. unfold saveLayout. by destruct (serializeLayout (doc s)). Qed.

Lemma fire_frame s tm :
  doc (fire s tm) = doc s
  /\ timers (clk (fire s tm)) = timers (clk s)
  /\ next_timer (clk (fire s tm)) = next_timer (clk s)
  /\ saveTimer (clk (fire s tm)) = saveTimer (clk s)
  /\ now (clk (fire s tm)) = Z.max (now (clk s)) (due tm).
Proof.
  unfold fire.
  match goal with |- context [saveLayout ?x] =>
    destruct (saveLayout_frame x) as [-> ->] end.
  done.
Qed.

Lemma fold_fire_frame l s :
  doc (fold_left fire l s) = doc s
  /\ timers (clk (fold_left fire l s)) = timers (clk s)
  /\ next_timer (clk (fold_left fire l s)) = next_timer (clk s)
  /\ saveTimer (clk (fold_left fire l s)) = saveTimer (clk s).
Proof.
  revert s. induction l as [|tm l IH]; intros s; simpl; [done|].
  destruct (IH (fire s tm)) as (H1 & H2 & H3 & H4).
  destruct (fire_frame s tm) as (F1 & F2 & F3 & F4 & _).
  rewrite H1, H2, H3, H4. done.
Qed.

Lemma fold_fire_now t l s :
  Forall (fun tm => due tm <= t) l ->
  Z.max (now (clk (fold_left fire l s))) t = Z.max (now (clk s)) t.
Proof.
  intros H. revert s. induction H as [|tm l Htm Hl IH]; intros s; simpl; [done|].
  rewrite IH. destruct (fire_frame s tm) as (_ & _ & _ & _ & ->). lia.
Qed.

Lemma now_advance t s : now (clk (advance t s)) = Z.max (now (clk s)) t.
Proof.
  unfold advance. simpl. rewrite (fold_fire_now t); [done|].
  apply List.Forall_forall. intros tm Htm. apply filter_In in Htm as [_ Hd].
  unfold is_due in Hd. lia.
Qed.

Lemma doc_advance t s : doc (advance t s) = doc s.
Proof.
  unfold advance. simpl.
  match goal with |- context [fold_left fire ?l ?s0] =>
    by destruct (fold_fire_frame l s0) as (-> & _) end.
Qed.

Lemma timers_ok_advance t s : timers_ok (clk s) -> timers_ok (clk (advance t s)).
Proof.
  intros Hok. unfold advance, timers_ok in *. simpl.
  match goal with |- context [fold_left fire ?l ?s0] =>
    destruct (fold_fire_frame l s0) as (_ & -> & _ & ->) end.
  simpl. apply List.Forall_forall. intros tm Htm. apply filter_In in Htm as [Hin _].
  rewrite List.Forall_forall in Hok. by apply Hok.
Qed.

(** While no timer is due, time passes without effect. *)
Lemma advance_idle t s :
  Forall (fun tm => t < due tm) (timers (clk s)) ->
  advance t s =
  {| doc := doc s;
     clk := {| now := Z.max (now (clk s)) t; timers := timers (clk s);
               next_timer := next_timer (clk s); saveTimer := saveTimer (clk s) |};
     requests := requests s |}.
Proof.
  intros H. unfold advance.
  rewrite (filter_none (is_due t)), (filter_all (fun tm => negb (is_due t tm))).
  - reflexivity.
  - eapply Forall_impl; [exact H|]. simpl. intros tm Htm. unfold is_due.
    apply negb_true_iff, Z.leb_gt. lia.
  - eapply Forall_impl; [exact H|]. simpl. intros tm Htm. unfold is_due.
    apply Z.leb_gt. lia.
Qed.

Lemma at_time_first s t e :
  timers_ok (clk s) -> now (clk s) <= t ->
  armed (clk (at_time s (t, e))) t
  /\ requests (at_time s (t, e)) = requests (advance t s)
  /\ doc (at_time s (t, e)) = e (doc s).
Proof.
  intros Hok Hnow. unfold at_time, apply_edit. cbn [fst snd].
  match goal with |- context [scheduleSave ?x] =>
    destruct (scheduleSave_armed x) as (Ha & Hd & Hr) end.
  { simpl. by apply timers_ok_advance. }
  cbn [clk doc requests] in Ha, Hr, Hd.
  rewrite now_advance in Ha. rewrite Z.max_r in Ha by lia.
  split; [exact Ha|]. split; [exact Hr|].
  rewrite Hd. apply (f_equal e), doc_advance.
Qed.

Lemma at_time_armed s t0 t e :
  armed (clk s) t0 -> t0 <= t < t0 + 500 ->
  armed (clk (at_time s (t, e))) t
  /\ requests (at_time s (t, e)) = requests s
  /\ doc (at_time s (t, e)) = e (doc s).
Proof.
  intros Ha Ht.
  destruct (at_time_first s t e) as (H1 & H2 & H3).
  { by eapply armed_timers_ok. }
  { destruct Ha as (i & _ & _ & ->). lia. }
  split; [exact H1|]. split; [|exact H3]. rewrite H2.
  destruct Ha as (i & Hti & _ & _).
  rewrite advance_idle; [done|]. rewrite Hti. repeat constructor. simpl. lia.
Qed.

Lemma burst_armed rest : forall s t0,
  armed (clk s) t0 -> rapid t0 rest ->
  armed (clk (run_burst rest s)) (last_time t0 rest)
  /\ requests (run_burst rest s) = requests s
  /\ doc (run_burst rest s) = changed rest (doc s).
Proof.
  induction rest as [|[t e] rest IH]; intros s t0 Ha Hr; simpl; [done|].
  destruct Hr as [Ht Hr]. simpl in *.
  destruct (at_time_armed s t0 t e Ha Ht) as (Ha' & Hreq & Hdoc).
  destruct (IH (at_time s (t, e)) t Ha' Hr) as (H1 & H2 & H3).
  unfold run_burst, last_time, changed in *.
  split; [exact H1|]. split; [by rewrite H2|]. by rewrite H3, Hdoc.
Qed.

Lemma advance_fires s t T :
  armed (clk s) t -> t + 500 <= T ->
  requests (advance T s) =
  requests s
  ++ match serializeLayout (doc s) with
     | Some layout => [SaveRequest (t + 500) layout (project (doc s))]
     | None => []
     end.
Proof.
  intros (i & Hti & _ & Hnow) HT. unfold advance. rewrite Hti.
  cbn [List.filter].
  assert (E : is_due T (Timer i (t + 500)) = true)
    by (unfold is_due; cbn [due]; apply Z.leb_le; lia).
  rewrite E. cbn [negb fold_left requests]. unfold fire.
  rewrite saveLayout_requests.
  cbn [requests doc clk now due]. rewrite Hnow, Z.max_r by lia. reflexivity.
Qed.

(** The payload of a page that can be serialized reflects it, block by
    block. *)
Lemma serializeLayout_reflects d payload :
  serializeLayout d = Some payload -> Forall2 reflects (layer d) payload.
Proof.
  unfold serializeLayout. intros H. apply mapM_Some_1 in H.
  eapply Forall2_impl; [exact H|]. intros b e Hbe. unfold serialize in Hbe.
  destruct (block_inner b) as [html|] eqn:Hi; [|discriminate].
  injection Hbe as <-. unfold reflects. simpl. by rewrite Hi.
Qed.

(** A page whose blocks all have their [.block-inner] can be
    serialized. *)
Lemma serializeLayout_total d :
  Forall (fun b => is_Some (block_inner b)) (layer d) ->
  is_Some (serializeLayout d).
Proof.
  intros H. unfold serializeLayout. apply mapM_is_Some.
  eapply Forall_impl; [exact H|]. intros b [html Hb]. unfold compose, serialize.
  rewrite Hb. eauto.
Qed.

(** A burst on the legacy page: nothing is sent while it lasts; once
    500 ms have passed after its last edit, [saveLayout] has run once,
    500 ms after that edit, on the page as the burst left it. *)
Lemma debounced_burst (s : state) (t1 : Z) (e1 : edit) (rest : list (Z * edit))
    (T : Z) :
  timers_ok (clk s) ->
  now (clk s) <= t1 ->
  rapid t1 rest ->
  last_time t1 rest + 500 <= T ->
  let burst := (t1, e1) :: rest in
  let s_end := run_burst burst s in
  let page := changed burst (doc s) in
  requests s_end = requests (advance t1 s)
  /\ requests (advance T s_end) =
     requests s_end
     ++ match serializeLayout page with
        | Some layout => [SaveRequest (last_time t1 rest + 500) layout (project page)]
        | None => []
        end.
Proof.
  intros Hok Hnow Hr HT burst s_end page.
  destruct (at_time_first s t1 e1 Hok Hnow) as (Ha & Hreq & Hdoc).
  destruct (burst_armed rest _ t1 Ha Hr) as (Ha' & Hreq' & Hdoc').
  change (run_burst rest (at_time s (t1, e1))) with s_end in *.
  assert (Hpage : doc s_end = page).
  { rewrite Hdoc', Hdoc. reflexivity. }
  split.
  - by rewrite Hreq'.
  - rewrite (advance_fires s_end _ T Ha' HT), Hpage. reflexivity.
Qed.

(** Five edits within 500 ms: one save, 500 ms after the last of
    them, carrying the final text. *)
Example five_rapid_edits_one_save :
  requests (advance 2000 (run_burst sample_burst sample_start)) =
  [SaveRequest 2000
     [Entry (Some "b_1") (Some "body") (JS.Fin 100) (JS.Fin 100) (JS.Fin 200)
        (JS.Fin 150) "Hello" "1"]
     "default"].
Proof. vm_compute. reflexivity. Qed.

(** A block without its [.block-inner] makes [serializeLayout] throw:
    the timer runs, and nothing is sent. *)
Example save_of_broken_page_sends_nothing :
  let broken : edit :=
    fun d => Document (project d) [Element (Some "b_1") (Some "body")
                                     "100px" "100px" "200px" "150px" "1" None] in
  requests (advance 2000 (run_burst [(1100, broken)] sample_start)) = [].
Proof. vm_compute. reflexivity. Qed.

End LegacyBlocksFacts.

(** ** Edits and what is sent for them *)

Module PersistenceFacts.
Import LegacyBlocks LegacyBlocksFacts.

(** C4, as the code has it.  The legacy layout script debounces: for a
    burst of one or more edits, each less than 500 ms after the one
    before it, nothing is sent while the burst lasts, and once 500 ms
    have passed after the last edit [saveLayout] has run exactly once,
    500 ms after that edit; it sends one request, whose payload
    reflects the page as the last edit left it, block by block -- or
    nothing at all when [serializeLayout] throws, which it does not
    when every block has its [.block-inner].  The editor of [pages.js]
    does not debounce: of a series of numeric edits of the selected
    block each one sends its update request at once, so there are as
    many requests as edits, the last one carrying the position the
    store then holds. *)
Theorem edits_are_persisted (s : state) (t1 : Z) (e1 : edit)
    (rest : list (Z * edit)) (T : Z)
    (ed : Editor.state) (b : Editor.block) (cs : list (Editor.field * JS.num)) :
  timers_ok (clk s) ->
  now (clk s) <= t1 ->
  rapid t1 rest ->
  last_time t1 rest + 500 <= T ->
  Editor.getSelectedBlock ed = Some b ->
  cs <> [] ->
  let burst := (t1, e1) :: rest in
  let s_end := run_burst burst s in
  let page := changed burst (doc s) in
  let ed' := Editor.run (Editor.numeric_changes cs) ed in
  (requests s_end = requests (advance t1 s)
   /\ (forall payload,
         serializeLayout page = Some payload ->
         requests (advance T s_end) =
         requests s_end
         ++ [SaveRequest (last_time t1 rest + 500) payload (project page)]
         /\ Forall2 reflects (layer page) payload)
   /\ (serializeLayout page = None -> requests (advance T s_end) = requests s_end)
   /\ (Forall (fun blk => is_Some (block_inner blk)) (layer page) ->
       is_Some (serializeLayout page)))
  /\ (exists sent b',
        Editor.effects ed' = Editor.effects ed ++ sent
        /\ length sent = length cs
        /\ forallb Editor.is_update sent = true
        /\ Editor.getSelectedBlock ed' = Some b'
        /\ last sent =
           Some (Editor.PostBlockUpdate (Editor.project ed) (Editor.b_id b')
                   (Editor.UpdPosition (Editor.b_position b')))).
Proof.
  intros Hok Hnow Hr HT Hsel Hcs burst s_end page ed'. split.
  - destruct (debounced_burst s t1 e1 rest T Hok Hnow Hr HT) as [H1 H2].
    fold burst s_end page in H1, H2.
    split; [exact H1|]. split; [|split].
    + intros payload Hp. rewrite Hp in H2. split; [exact H2|].
      by apply serializeLayout_reflects.
    + intros Hp. rewrite Hp, app_nil_r in H2. exact H2.
    + apply serializeLayout_total.
  - destruct (EditorFacts.numeric_changes_persist cs ed b Hsel Hcs)
      as (sent & b' & H). exists sent, b'. exact H.
Qed.

Lemma edits_are_persisted_witness :
  let s_end := run_burst sample_burst sample_start in
  let page := changed sample_burst (doc sample_start) in
  let ed' := Editor.run (Editor.numeric_changes Editor.sample_changes)
               Editor.sample_selected in
  (requests s_end = requests (advance 1100 sample_start)
   /\ (forall payload,
         serializeLayout page = Some payload ->
         requests (advance 2000 s_end) =
         requests s_end ++ [SaveRequest 2000 payload (project page)]
         /\ Forall2 reflects (layer page) payload)
   /\ (serializeLayout page = None -> requests (advance 2000 s_end) = requests s_end)
   /\ (Forall (fun blk => is_Some (block_inner blk)) (layer page) ->
       is_Some (serializeLayout page)))
  /\ (exists sent b',
        Editor.effects ed' = Editor.effects Editor.sample_selected ++ sent
        /\ length sent = 5%nat
        /\ forallb Editor.is_update sent = true
        /\ Editor.getSelectedBlock ed' = Some b'
        /\ last sent =
           Some (Editor.PostBlockUpdate "demo" (Editor.b_id b')
                   (Editor.UpdPosition (Editor.b_position b')))).
Proof.
  apply (edits_are_persisted sample_start 1100 (retype "H") (tl sample_burst) 2000
           Editor.sample_selected
           (Editor.sample_block (Editor.Position 100 100 200 150))
           Editor.sample_changes).
  - unfold timers_ok. vm_compute. constructor.
  - vm_compute. discriminate.
  - simpl. lia.
  - vm_compute. discriminate.
  - vm_compute. reflexivity.
  - discriminate.
Defined.

End PersistenceFacts.

(** ** Properties of the block endpoint *)

Module ServerFacts.
Import Server ListFacts.

(** *** Dicts with string keys *)

Lemma same_or_eq_str a p : same_or_eq a (PyStr p) = true <-> a = PyStr p.
Proof.
  unfold same_or_eq.
  destruct a as [|b|z|x|s|l|d]; cbn [eqb_with number];
    try (split; discriminate).
  rewrite String.eqb_eq. split; [by intros ->|by intros [= ->]].
Qed.

Lemma lookup_store_eq p v d : lookup (PyStr p) (store (PyStr p) v d) = Some v.
Proof.
  induction d as [|[k w] d IH]; simpl.
  - replace (same_or_eq (PyStr p) (PyStr p)) with true; [done|].
    symmetry. by apply same_or_eq_str.
  - destruct (same_or_eq k (PyStr p)) eqn:E; simpl; by rewrite E.
Qed.

Lemma lookup_store_ne p o v d :
  o <> p -> lookup (PyStr o) (store (PyStr p) v d) = lookup (PyStr o) d.
Proof.
  intros Hne. induction d as [|[k w] d IH]; simpl.
  - destruct (same_or_eq (PyStr p) (PyStr o)) eqn:E; [|done].
    apply same_or_eq_str in E. congruence.
  - destruct (same_or_eq k (PyStr p)) eqn:E; simpl.
    + apply same_or_eq_str in E. subst k.
      destruct (same_or_eq (PyStr p) (PyStr o)) eqn:E'; [|done].
      apply same_or_eq_str in E'. congruence.
    + by rewrite IH.
Qed.

Lemma store_store p v w d :
  store (PyStr p) w (store (PyStr p) v d) = store (PyStr p) w d.
Proof.
  induction d as [|[k u] d IH]; simpl.
  - replace (same_or_eq (PyStr p) (PyStr p)) with true; [done|].
    symmetry. by apply same_or_eq_str.
  - destruct (same_or_eq k (PyStr p)) eqn:E; simpl; rewrite E; [done|].
    by rewrite IH.
Qed.

(** *** The comprehension of the delete branch *)

Lemma id_of_getitem b i : id_of b = Some i <-> getitem b "id" = Ok i.
Proof.
  unfold id_of. destruct (getitem b "id"); split; congruence.
Qed.

Lemma without_id_filter block_id bs :
  all_have_id bs ->
  without_id block_id bs = Ok (List.filter (keeps block_id) bs).
Proof.
  induction 1 as [|b bs [i Hi] Hbs IH]; simpl; [done|].
  unfold keeps. rewrite Hi. apply id_of_getitem in Hi. rewrite Hi, IH. done.
Qed.

(** With a block that is no dict or has no id the comprehension raises. *)
Lemma without_id_missing block_id bs :
  ~ all_have_id bs -> exists e, without_id block_id bs = Raise e.
Proof.
  induction bs as [|b bs IH]; intros Hno; simpl.
  - destruct Hno. constructor.
  - destruct (getitem b "id") as [i|e] eqn:Hi; [|eauto].
    destruct IH as [e He].
    + intros Hall. apply Hno. constructor; [|exact Hall].
      exists i. by apply id_of_getitem.
    + rewrite He. eauto.
Qed.

Lemma all_have_id_filter f bs : all_have_id bs -> all_have_id (List.filter f bs).
Proof.
  unfold all_have_id. rewrite !List.Forall_forall. intros H b Hb.
  apply filter_In in Hb as [Hb _]. by apply H.
Qed.

Lemma keeps_spec block_id b :
  keeps block_id b = true <-> exists i, id_of b = Some i /\ py_eq i block_id = false.
Proof.
  unfold keeps. destruct (id_of b) as [i|].
  - rewrite negb_true_iff. split; [eauto|]. by intros (j & [= <-] & H).
  - split; [discriminate|]. by intros (j & H & _).
Qed.

(** *** The delete branch *)

(** What [block_api] does with a delete request. *)
Lemma block_api_delete project block_id uuid layouts :
  block_api (delete_request project block_id) uuid layouts =
  let stored :=
    match lookup (PyStr project) layouts with
    | Some _ => layouts
    | None => store (PyStr project) get_default_layout layouts
    end in
  let layout := layout_of project layouts in
  match getitem layout "blocks" with
  | Raise e => (stored, Raise e)
  | Ok blocks =>
      match iterate blocks with
      | Raise e => (stored, Raise e)
      | Ok members =>
          match without_id block_id members with
          | Raise e => (stored, Raise e)
          | Ok remaining =>
              (store (PyStr project) (with_blocks layout remaining) stored,
               Ok success)
          end
      end
  end.
Proof.
  unfold block_api, delete_request, layout_of, bind, lift, ret, has_layout,
    layout_at, set_layout.
  cbn [truthy get lookup same_or_eq eqb_with String.eqb Ascii.eqb Bool.eqb
       hashable py_eq number fst snd].
  destruct (lookup (PyStr project) layouts) as [layout|] eqn:Hl.
  - rewrite Hl.
    destruct (getitem layout "blocks") as [blocks|e]; [|done].
    destruct (iterate blocks) as [members|e]; [|done].
    by destruct (without_id block_id members).
  - rewrite lookup_store_eq.
    destruct (getitem get_default_layout "blocks") as [blocks|e]; [|done].
    destruct (iterate blocks) as [members|e]; [|done].
    by destruct (without_id block_id members).
Qed.

Lemma blocks_of_with_blocks project layout bs stored :
  is_Some (match layout with PyDict _ => Some tt | _ => None end) ->
  blocks_of project (store (PyStr project) (with_blocks layout bs) stored) = Some bs.
Proof.
  intros [[] Hd]. destruct layout; try discriminate.
  unfold blocks_of, layout_of. rewrite lookup_store_eq.
  unfold with_blocks, getitem. by rewrite lookup_store_eq.
Qed.



(** The ids ['a'] and [1] of the sample layout: a delete of ['a']
    removes both blocks with that id, a delete of [1.0] the block with
    the id [1], a delete of ['ghost'] none. *)
Example delete_examples :
  let blocks_after block_id :=
    blocks_of "demo"
      (fst (block_api (delete_request "demo" block_id) "0f3a9c1e" sample_layouts)) in
  blocks_after (PyStr "a")
  = Some [sample_block (PyStr "b") 2; sample_block (PyInt 1) 4]
  /\ blocks_after (PyFloat (JS.Fin 1))
     = Some [sample_block (PyStr "a") 1; sample_block (PyStr "b") 2;
             sample_block (PyStr "a") 3]
  /\ blocks_after (PyStr "ghost") = Some sample_blocks.
Proof. vm_compute. repeat split; reflexivity. Qed.

(** A block without an id makes the handler raise [KeyError], a block
    that is no dict [TypeError]; the layout keeps its blocks. *)
Example delete_raises :
  let broken bad := [(PyStr "demo", with_blocks get_default_layout [bad])] in
  block_api (delete_request "demo" (PyStr "a")) "0f3a9c1e" (broken (PyDict []))
  = (broken (PyDict []), Raise KeyError)
  /\ block_api (delete_request "demo" (PyStr "a")) "0f3a9c1e" (broken (PyStr "a"))
     = (broken (PyStr "a"), Raise TypeError).
Proof. vm_compute. split; reflexivity. Qed.

End ServerFacts.
